(** * RevSight AI dual-source data loader (src/revopt_loader.js)

    A shallow embedding of the loader and the properties of its
    network-first / last-known-good (LKG) fallback protocol.

    Conventions of the embedding.
    - JavaScript values are the type [value]; a row is a JavaScript object
      (an association list from column name to cell value).
    - A string is a Rocq string holding the UTF-8 text.
    - Numbers never take part in arithmetic in this program; a number is
      identified with the text [String(n)] prints for it.
    - The browser facilities the loader calls ([fetch], [crypto.subtle],
      [Papa.parse], [JSON], [Number]) are the fields of the classes
      [Runtime] and of the record [Env]; [localStorage] and the console
      are the mutable [World].
    - [async] functions are run to completion one after the other: every
      [await] of the source is sequential. *)

From stdpp Require Import gmap strings list fin_maps pretty.
From Stdlib Require Import Strings.Ascii Strings.Byte.

Set Default Proof Using "Type".
Set Warnings "-register-all".

(* ===================================================================== *)
(** ** JavaScript values *)
(* ===================================================================== *)

Inductive value : Type :=
  | VUndef                                   (* undefined *)
  | VNull                                    (* null *)
  | VBool (b : bool)
  | VNum (shown : string)                    (* a number n, given by String(n) *)
  | VStr (s : string)
  | VArr (items : list value)
  | VObj (props : list (string * value))     (* own enumerable properties, in order *)
  | VHost (shown : string).                  (* a built-in function or prototype
                                                object, given by String(v) *)

(** A row as the CSV decoder delivers it with [header:true]. *)
Abbreviation row := (list (string * value)).

(** [ToBoolean]. *)
Definition truthy (v : value) : bool :=
  match v with
  | VUndef | VNull => false
  | VBool b => b
  | VNum n => negb (bool_decide (n = "0" ∨ n = "NaN"))
  | VStr s => negb (bool_decide (s = ""))
  | VArr _ | VObj _ | VHost _ => true
  end.

(** [a || b]. *)
Definition js_or (a b : value) : value := if truthy a then a else b.

Definition nullish (v : value) : bool :=
  match v with VUndef | VNull => true | _ => false end.

(** [xs.join(sep)] on strings. *)
Fixpoint join (sep : string) (xs : list string) : string :=
  match xs with
  | [] => ""
  | [x] => x
  | x :: rest => x +:+ sep +:+ join sep rest
  end.

(** [String(v)]; an array prints its elements joined by commas, with
    [null] and [undefined] elements printed as nothing. *)
Fixpoint to_string (v : value) : string :=
  match v with
  | VUndef => "undefined"
  | VNull => "null"
  | VBool true => "true"
  | VBool false => "false"
  | VNum n => n
  | VStr s => s
  | VArr items =>
      join "," (map (λ x, if nullish x then "" else to_string x) items)
  | VObj _ => "[object Object]"
  | VHost shown => shown
  end.

(** [xs.join(sep)] on an array of values. *)
Definition array_join (sep : string) (xs : list value) : string :=
  join sep (map (λ x, if nullish x then "" else to_string x) xs).

(** Association-list lookup: the own property [k] of an object. *)
Fixpoint assoc (k : string) (props : list (string * value)) : option value :=
  match props with
  | [] => None
  | (k', v) :: rest => if decide (k = k') then Some v else assoc k rest
  end.

(** [Object.keys(o)]. *)
Definition keys (props : list (string * value)) : list string := props.*1.

(** What a plain object inherits from [Object.prototype]. *)
Definition object_prototype (k : string) : option value :=
  let native f := Some (VHost ("function " +:+ f +:+ "() { [native code] }")) in
  if decide (k = "constructor") then native "Object"
  else if decide (k = "__proto__") then Some (VHost "[object Object]")
  else if bool_decide (k ∈ ["hasOwnProperty"; "isPrototypeOf";
                            "propertyIsEnumerable"; "toLocaleString";
                            "toString"; "valueOf"; "__defineGetter__";
                            "__defineSetter__"; "__lookupGetter__";
                            "__lookupSetter__"])
  then native k
  else None.

(** [o[k]] on a plain object: own property first, then the prototype. *)
Definition obj_get (props : list (string * value)) (k : string) : value :=
  match assoc k props with
  | Some v => v
  | None => default VUndef (object_prototype k)
  end.

(** Completion of a call into the host: a value or a thrown error message. *)
Inductive completion (A : Type) : Type :=
  | Normal (a : A)
  | Abrupt (msg : string).
Arguments Normal {A} a.
Arguments Abrupt {A} msg.

(** [v.name] for one of the field names the loader reads off the manifest
    and the schema. None of them is an index, [length], or a member of a
    built-in prototype, so only objects can hold it; reading a property of
    [null] or [undefined] is a TypeError. *)
Definition field (v : value) (name : string) : completion value :=
  match v with
  | VUndef => Abrupt ("Cannot read properties of undefined (reading '"
                      +:+ name +:+ "')")
  | VNull => Abrupt ("Cannot read properties of null (reading '"
                     +:+ name +:+ "')")
  | VObj props => Normal (obj_get props name)
  | _ => Normal VUndef
  end.

(* ===================================================================== *)
(** ** String builtins the loader uses *)
(* ===================================================================== *)

(** A string is the UTF-8 text of its JavaScript counterpart. The characters
    the loader singles out ([$], [%], [,], the hexadecimal digits, the
    unreserved URI characters) are ASCII, so working on bytes is exact for
    them; case folding is done on the ASCII letters. *)

Definition chars (s : string) : list ascii := String.list_ascii_of_string s.
Definition of_chars (cs : list ascii) : string := String.string_of_list_ascii cs.

(** [s.replace(/[cs]/g, "")]: drop every occurrence of the listed characters. *)
Definition remove_chars (cs : list ascii) (s : string) : string :=
  of_chars (filter (λ c, c ∉ cs) (chars s)).

Definition code (c : ascii) : N := Ascii.N_of_ascii c.

Definition lower_char (c : ascii) : ascii :=
  if bool_decide (65 ≤ code c ≤ 90)%N then Ascii.ascii_of_N (code c + 32) else c.

(** [s.toLowerCase()]. *)
Definition toLowerCase (s : string) : string := of_chars (lower_char <$> chars s).

Definition hex_digit (upper : bool) (d : N) : ascii :=
  if (d <? 10)%N then Ascii.ascii_of_N (48 + d)
  else Ascii.ascii_of_N ((if upper then 55 else 87) + d).

(** [b.toString(16)] for an element of a [Uint8Array]. *)
Definition toString16 (b : byte) : string :=
  let n := Byte.to_N b in
  if (n <? 16)%N then of_chars [hex_digit false n]
  else of_chars [hex_digit false (n / 16); hex_digit false (n mod 16)].

(** [s.padStart(n, c)]. *)
Definition padStart (n : nat) (c : ascii) (s : string) : string :=
  of_chars (replicate (n - String.length s) c) +:+ s.

(** The characters [encodeURIComponent] leaves alone: letters, digits and
    [- _ . ! ~ * ' ( )]. *)
Definition uri_unreserved (c : ascii) : bool :=
  let n := code c in
  bool_decide ((65 ≤ n ≤ 90) ∨ (97 ≤ n ≤ 122) ∨ (48 ≤ n ≤ 57))%N
  || bool_decide (c ∈ chars "-_.!~*'()").

(** [encodeURIComponent(String(v))]: every other byte becomes [%XX]. *)
Definition encodeURIComponent (v : value) : string :=
  of_chars
    (chars (to_string v) ≫= λ c,
       if uri_unreserved c then [c]
       else ["%"%char; hex_digit true (code c / 16); hex_digit true (code c mod 16)]).

(* ===================================================================== *)
(** ** Errors, the mutable world and the monad of loader computations *)
(* ===================================================================== *)

(** The source throws plain [Error] objects told apart by their message.
    [kind] records which [throw] raised the error; [HostError] is anything
    the browser itself throws (a rejected [fetch], a [SyntaxError] of
    [JSON.parse], a [TypeError], a storage exception). *)
Inductive error_kind : Type :=
  | FetchError
  | ChecksumMismatchError
  | EmptyDatasetError
  | MissingColumnsError
  | DecoderUnavailableError
  | NoDataAvailableError
  | HostError.

Global Instance error_kind_eq_dec : EqDecision error_kind.
Proof. solve_decision. Defined.

Record exn : Type := Exn { kind : error_kind; message : string }.

(** [localStorage]: a string-to-string map that refuses writes beyond its
    quota and refuses everything when storage is disabled. *)
Record Storage : Type := MkStorage {
  enabled : bool;
  quota : nat;
  items : gmap string string
}.

Definition used (m : gmap string string) : nat :=
  map_fold (λ k v n, String.length k + String.length v + n) 0 m.

(** What [console.warn] is called with. *)
Inductive log_entry : Type :=
  | NonNumericSample (col : value) (v : value)
      (* "[revopt] Non-numeric sample for", col, "→", v *)
  | NetworkPathFailed (msg : string).
      (* "[revopt] network path failed:", e.message *)

(** The global state a load can change. [revoptData] and [revoptDataMeta]
    are the two snapshots hung on [window]. *)
Record World : Type := MkWorld {
  localStorage : Storage;
  console : list log_entry;
  revoptData : option value;
  revoptDataMeta : option value
}.

Definition with_storage (st : Storage) (w : World) : World :=
  MkWorld st (console w) (revoptData w) (revoptDataMeta w).

Inductive outcome (A : Type) : Type :=
  | Return (a : A)
  | Throw (e : exn).
Arguments Return {A} a.
Arguments Throw {A} e.

Definition Js (A : Type) : Type := World → outcome A * World.

Definition ret {A} (a : A) : Js A := λ w, (Return a, w).

Definition bind {A B} (m : Js A) (k : A → Js B) : Js B :=
  λ w, match m w with
       | (Return a, w') => k a w'
       | (Throw e, w') => (Throw e, w')
       end.

Definition throw {A} (k : error_kind) (msg : string) : Js A :=
  λ w, (Throw (Exn k msg), w).

(** [try { body } catch (e) { handler }]: the handler runs in the world the
    body left behind. *)
Definition try_catch {A} (body : Js A) (handler : exn → Js A) : Js A :=
  λ w, match body w with
       | (Return a, w') => (Return a, w')
       | (Throw e, w') => handler e w'
       end.

(** A call into the host, rethrown as a [HostError]. *)
Definition host {A} (c : completion A) : Js A :=
  match c with
  | Normal a => ret a
  | Abrupt msg => throw HostError msg
  end.

Declare Scope js_scope.
Delimit Scope js_scope with js.
Notation "'let*' x ':=' m 'in' k" := (bind m (λ x, k))
  (at level 10, x name, m at level 100, k at level 200) : js_scope.
Notation "m ';;' k" := (bind m (λ _, k))
  (at level 100, k at level 200, right associativity) : js_scope.
Local Open Scope js_scope.

(** [console.warn(...)]. *)
Definition console_warn (entry : log_entry) : Js unit :=
  λ w, (Return (),
        MkWorld (localStorage w) (console w ++ [entry])
                (revoptData w) (revoptDataMeta w)).

(** [localStorage.getItem(k)]: the stored string, or [null]. *)
Definition getItem (k : string) : Js (option string) :=
  λ w, let st := localStorage w in
       if enabled st then (Return (items st !! k), w)
       else (Throw (Exn HostError "SecurityError: storage is disabled"), w).

(** [localStorage.setItem(k, v)]. *)
Definition setItem (k v : string) : Js unit :=
  λ w, let st := localStorage w in
       if negb (enabled st)
       then (Throw (Exn HostError "SecurityError: storage is disabled"), w)
       else
         let items' := <[k := v]> (items st) in
         if bool_decide (used items' ≤ quota st)
         then (Return (), with_storage (MkStorage true (quota st) items') w)
         else (Throw (Exn HostError "QuotaExceededError"), w).

(* ===================================================================== *)
(** ** The browser facilities *)
(* ===================================================================== *)

(** The pure builtins, the same for every load. *)
Class Runtime : Type := {
  JSON_parse : string → completion value;
  JSON_stringify : value → string;
  (** [Number.isNaN(Number(s))] *)
  Number_isNaN : string → bool;
  JSON_parse_null : JSON_parse "null" = Normal VNull
}.

(** What [fetch] resolves to. *)
Record response : Type := MkResponse {
  ok : bool;
  status : N;
  text : completion string          (* await res.text() *)
}.

Inductive skip_mode : Type := SkipNone | SkipEmpty | SkipGreedy.

(** The options [parseCSV] hands to [Papa.parse]. *)
Record papa_config : Type := MkPapaConfig {
  header : bool;
  dynamicTyping : bool;
  skipEmptyLines : skip_mode;
  transformHeader : string → string
}.

(** The surroundings of one load attempt: the network, the digest service
    and the CSV decoder, if its script was loaded. *)
Record Env : Type := MkEnv {
  (** [await fetch(url, {cache: "reload"})] *)
  fetch : string → completion response;
  (** [await crypto.subtle.digest('SHA-256', new TextEncoder().encode(text))] *)
  subtle_digest : string → completion (list byte);
  (** [window.Papa], and [Papa.parse] run to its [complete] or [error]
      callback *)
  Papa : option (papa_config → string → completion (list row))
}.

(** [s.trim()], on the ASCII white space. *)
Definition is_space (c : ascii) : bool :=
  bool_decide (code c = 32 ∨ 9 ≤ code c ≤ 13)%N.

Fixpoint drop_spaces (cs : list ascii) : list ascii :=
  match cs with
  | c :: rest => if is_space c then drop_spaces rest else cs
  | [] => []
  end.

Definition trim (s : string) : string :=
  of_chars (reverse (drop_spaces (reverse (drop_spaces (chars s))))).

(* ===================================================================== *)
(** ** The loader *)
(* ===================================================================== *)

Definition MANIFEST_URL : string := "data/manifest.json".
Definition SCHEMA_URL : string := "data/schema_v1.json".
Definition LKG_KEY : string := "revopt:lkg:data".
Definition LKG_META_KEY : string := "revopt:lkg:meta".

(** What [loadNetwork], [loadLKG] and [loadData] hand back: [{rows, meta}]. *)
Record LoadResult : Type := MkLoadResult { rows : value; meta : value }.

(** The array of row objects as a value. *)
Definition rows_value (rs : list row) : value := VArr (VObj <$> rs).

(** [{ source: "network", manifest }] *)
Definition network_meta (manifest : value) : value :=
  VObj [("source", VStr "network"); ("manifest", manifest)].

(** [v !== null && v !== undefined && v !== ""] *)
Definition nonblank (v : value) : bool :=
  match v with
  | VNull | VUndef => false
  | VStr s => negb (bool_decide (s = ""))
  | _ => true
  end.

(** [String(v).replace(/[$,%]/g,"").replace(/,/g,"")] *)
Definition strip_symbols (v : value) : string :=
  remove_chars (chars ",") (remove_chars (chars "$,%") (to_string v)).

(** [cols.includes(c)]: only a string can equal a key. *)
Definition includes (cols : list string) (c : value) : bool :=
  match c with
  | VStr s => bool_decide (s ∈ cols)
  | _ => false
  end.

(** [xs.filter(p)]; calling [filter] on anything but an array is a
    TypeError. *)
Definition array_filter (p : value → bool) (xs : value) : completion (list value) :=
  match xs with
  | VArr items => Normal (filter (λ x, p x = true) items)
  | _ => Abrupt "(intermediate value).filter is not a function"
  end.

(** The values a [for ... of] loop runs over: the elements of an array, the
    characters of a string (its bytes here, which is the same for ASCII
    text); other values are not iterable. *)
Definition iterate (xs : value) : completion (list value) :=
  match xs with
  | VArr items => Normal items
  | VStr s => Normal ((λ c, VStr (of_chars [c])) <$> chars s)
  | _ => Abrupt (to_string xs +:+ " is not iterable")
  end.

(** [for (const x of xs) body(x)] *)
Fixpoint for_of {A} (xs : list A) (body : A → Js unit) : Js unit :=
  match xs with
  | [] => ret ()
  | x :: rest => body x;; for_of rest body
  end.

Section Loader.
Context `{Runtime} (env : Env).

(** [sha256(text)]: the digest as lower-case hexadecimal text. *)
Definition sha256 (text : string) : Js string :=
  let* buf := host (subtle_digest env text) in
  ret (join "" ((λ b, padStart 2 "0" (toString16 b)) <$> buf)).

Definition saveLKG (meta rows : value) : Js unit :=
  try_catch
    (setItem LKG_KEY (JSON_stringify rows);;
     setItem LKG_META_KEY (JSON_stringify meta))
    (λ _, ret ()).                         (* storage full or disabled *)

(** [localStorage.getItem(k) || "null"] *)
Definition item_or_null (k : string) : Js string :=
  let* s := getItem k in
  ret (match s with
       | Some s => if bool_decide (s = "") then "null" else s
       | None => "null"
       end).

(** [None] is the [null] the source returns. *)
Definition loadLKG : Js (option LoadResult) :=
  try_catch
    (let* rowsText := item_or_null LKG_KEY in
     let* rows := host (JSON_parse rowsText) in
     let* metaText := item_or_null LKG_META_KEY in
     let* meta := host (JSON_parse metaText) in
     if negb (truthy rows) || negb (truthy meta) then ret None
     else ret (Some (MkLoadResult rows meta)))
    (λ _, ret None).

(** The inner loop of the numeric check for one column: rows [i], [i+1],
    ... for [steps] more iterations, left by [break] at the first sample
    that does not coerce. *)
Fixpoint sample_column (rows : list row) (col : value) (i steps : nat)
    : Js unit :=
  match steps with
  | 0 => ret ()
  | S steps' =>
      match rows !! i with
      | None => throw HostError "Cannot read properties of undefined"
      | Some r =>
          let v := obj_get r (to_string col) in
          if nonblank v && Number_isNaN (strip_symbols v)
          then console_warn (NonNumericSample col v)           (* break *)
          else sample_column rows col (S i) steps'
      end
  end.

(** [rows] is the array the decoder hands over: [!rows] cannot hold and
    [!rows.length] is emptiness; its elements are objects, so that
    [rows[0] || {}] is [rows[0]]. The schema is whatever [JSON.parse] made
    of the schema text. *)
Definition validateSchema (rows : list row) (schema : value) : Js unit :=
  match rows with
  | [] => throw EmptyDatasetError "empty dataset"
  | row0 :: _ =>
      let cols := keys row0 in
      let* required := host (field schema "required_columns") in
      let* missing := host (array_filter (λ c, negb (includes cols c))
                                         (js_or required (VArr []))) in
      if negb (bool_decide (missing = []))
      then throw MissingColumnsError
                 ("missing columns: " +:+ array_join ", " missing)
      else
        (* numeric warn only *)
        let* numeric := host (field schema "numeric_columns") in
        let* numCols := host (iterate (js_or numeric (VArr []))) in
        for_of numCols (λ col,
          sample_column rows col 0 (Nat.min (length rows) 50))
  end.

Definition fetchText (url version : value) : Js string :=
  let final :=
    if truthy version
    then to_string url +:+ "?v=" +:+ encodeURIComponent version
    else to_string url in
  let* res := host (fetch env final) in
  if negb (ok res)
  then throw FetchError ("HTTP " +:+ pretty (status res) +:+ " for " +:+ final)
  else host (text res).

Definition parseCSV (text : string) : Js (list row) :=
  match Papa env with
  | None => throw DecoderUnavailableError "PapaParse not loaded"
  | Some parse =>
      host (parse {| header := true;
                     dynamicTyping := false;
                     skipEmptyLines := SkipGreedy;
                     transformHeader := λ h, trim h |} text)
  end.

(** [manifest.sha256 && manifest.sha256.toLowerCase() !== hash.toLowerCase()]:
    [None] when [toLowerCase] is called on something that has no such
    method. *)
Definition checksum_differs (expected : value) (hash : string) : option bool :=
  if negb (truthy expected) then Some false
  else match expected with
       | VStr s => Some (negb (bool_decide (toLowerCase s = toLowerCase hash)))
       | _ => None
       end.

Definition loadNetwork : Js LoadResult :=
  let* manifestText := fetchText (VStr MANIFEST_URL) VUndef in
  let* manifest := host (JSON_parse manifestText) in
  let* schema_version := host (field manifest "schema_version") in
  let* schemaText := fetchText (VStr SCHEMA_URL) (js_or schema_version (VStr "")) in
  let* schema := host (JSON_parse schemaText) in
  let* url := host (field manifest "url") in
  let* version := host (field manifest "version") in
  let* csvText := fetchText url version in
  let* hash := sha256 csvText in
  let* expected := host (field manifest "sha256") in
  match checksum_differs expected hash with
  | None => throw HostError "manifest.sha256.toLowerCase is not a function"
  | Some true =>
      throw ChecksumMismatchError
            ("Checksum mismatch. Expected " +:+ to_string expected
             +:+ " got " +:+ hash)
  | Some false =>
      let* rows := parseCSV csvText in
      validateSchema rows schema;;
      saveLKG (network_meta manifest) (rows_value rows);;
      ret (MkLoadResult (rows_value rows) (network_meta manifest))
  end.

Definition loadData : Js LoadResult :=
  try_catch loadNetwork (λ e,
    console_warn (NetworkPathFailed (message e));;
    let* lkg := loadLKG in
    match lkg with
    | Some r => ret r
    | None =>
        throw NoDataAvailableError
              ("No data available (network failed and no LKG). "
               +:+ message e)
    end).

(** The public promise: it resolves to the rows and leaves the two
    snapshots on [window]. *)
Definition revoptDataPromise : Js value :=
  let* r := loadData in
  λ w, (Return (rows r),
        MkWorld (localStorage w) (console w) (Some (rows r)) (Some (meta r))).

End Loader.

(* ===================================================================== *)
(** ** Notions the properties are stated with *)
(* ===================================================================== *)

(** A computation that reads the surroundings but leaves the world alone. *)
Definition quiet {A} (m : Js A) : Prop := ∀ w, (m w).2 = w.

(** A computation whose result does not depend on the world it starts in. *)
Definition blind {A} (m : Js A) : Prop := ∀ w1 w2, (m w1).1 = (m w2).1.

(** The world after [entries] were written to the console. *)
Definition logged (entries : list log_entry) (w : World) : World :=
  MkWorld (localStorage w) (console w ++ entries) (revoptData w) (revoptDataMeta w).

(** [localStorage.setItem(k, v)] on the storage alone: the new storage, or
    [None] when the write is refused. *)
Definition store_put (k v : string) (st : Storage) : option Storage :=
  if enabled st && bool_decide (used (<[k := v]> (items st)) ≤ quota st)
  then Some (MkStorage true (quota st) (<[k := v]> (items st)))
  else None.

(** The text [getItem(k) || "null"] yields. *)
Definition text_or_null (s : option string) : string :=
  match s with
  | Some s => if bool_decide (s = "") then "null" else s
  | None => "null"
  end.

Section Notions.
Context `{Runtime} (env : Env).

(** The cell of row [r] in column [col] is filled in and does not coerce
    to a number once [$], [%] and [,] are stripped. *)
Definition offending (col : value) (r : row) : bool :=
  let v := obj_get r (to_string col) in
  nonblank v && Number_isNaN (strip_symbols v).

(** The warning the sampled rows [rs] give for column [col]: one for the
    first offending row, none if there is no such row. *)
Definition sample_warning (col : value) (rs : list row) : list log_entry :=
  match list_find (λ r, offending col r = true) rs with
  | Some (_, r) => [NonNumericSample col (obj_get r (to_string col))]
  | None => []
  end.

(** All warnings of the numeric check: per column, over the first 50 rows. *)
Definition numeric_warnings (numCols : list value) (rows : list row)
    : list log_entry :=
  numCols ≫= λ col, sample_warning col (take 50 rows).

(** [schema.required_columns || []], when it is an array. *)
Definition required_of (schema : value) : option (list value) :=
  match field schema "required_columns" with
  | Normal r => match js_or r (VArr []) with
                | VArr cs => Some cs
                | _ => None
                end
  | Abrupt _ => None
  end.

(** [schema.numeric_columns || []], when a [for ... of] can run over it. *)
Definition numeric_of (schema : value) : option (list value) :=
  match field schema "numeric_columns" with
  | Normal n => match iterate (js_or n (VArr [])) with
                | Normal cs => Some cs
                | Abrupt _ => None
                end
  | Abrupt _ => None
  end.

(** The required names that are not keys of row [r]. *)
Definition missing_in (r : row) (cs : list value) : list value :=
  filter (λ c, negb (includes (keys r) c) = true) cs.

(** What the store holds after [saveLKG]: both texts, the rows alone when
    the second write is refused, or what it held before. *)
Definition saved (meta rows : value) (st : Storage) : Storage :=
  match store_put LKG_KEY (JSON_stringify rows) st with
  | Some st1 =>
      match store_put LKG_META_KEY (JSON_stringify meta) st1 with
      | Some st2 => st2
      | None => st1
      end
  | None => st
  end.

(** What [loadLKG] finds in a storage. *)
Definition read_lkg (st : Storage) : option LoadResult :=
  if enabled st then
    match JSON_parse (text_or_null (items st !! LKG_KEY)) with
    | Normal rows =>
        match JSON_parse (text_or_null (items st !! LKG_META_KEY)) with
        | Normal meta =>
            if truthy rows && truthy meta
            then Some (MkLoadResult rows meta) else None
        | Abrupt _ => None
        end
    | Abrupt _ => None
    end
  else None.

(** The network path got as far as the digest: manifest, schema and
    payload were fetched and parsed, and [hash] is the payload's digest. *)
Record Fetched (w : World) (manifest schema : value)
    (csvText hash : string) (expected : value) : Prop := {
  fetched_manifest : ∃ manifestText,
    fetchText env (VStr MANIFEST_URL) VUndef w = (Return manifestText, w) ∧
    JSON_parse manifestText = Normal manifest;
  fetched_schema : ∃ schema_version schemaText,
    field manifest "schema_version" = Normal schema_version ∧
    fetchText env (VStr SCHEMA_URL) (js_or schema_version (VStr "")) w
      = (Return schemaText, w) ∧
    JSON_parse schemaText = Normal schema;
  fetched_payload : ∃ url version,
    field manifest "url" = Normal url ∧
    field manifest "version" = Normal version ∧
    fetchText env url version w = (Return csvText, w);
  fetched_digest : sha256 env csvText w = (Return hash, w);
  fetched_expected : field manifest "sha256" = Normal expected
}.

End Notions.

(** Either persisted key is missing, holds text that does not parse, or
    holds the JSON text of [null]. *)
Definition lacks `{Runtime} (st : Storage) (k : string) : Prop :=
  items st !! k = None
  ∨ ∃ s, items st !! k = Some s ∧
         ((∃ msg, JSON_parse s = Abrupt msg) ∨ JSON_parse s = Normal VNull).

(** The manifest this load attempt fetches and parses. *)
Definition fetches_manifest `{Runtime} (env : Env) (w : World) (manifest : value)
    : Prop :=
  ∃ manifestText,
    fetchText env (VStr MANIFEST_URL) VUndef w = (Return manifestText, w) ∧
    JSON_parse manifestText = Normal manifest.

(** [r] is what a network load of [env] returns after its rows passed the
    validation against the schema it fetched. *)
Definition validated_load `{Runtime} (env : Env) (w : World) (r : LoadResult)
    : Prop :=
  ∃ manifest schema csvText hash expected rs w1,
    Fetched env w manifest schema csvText hash expected ∧
    parseCSV env csvText w = (Return rs, w) ∧
    validateSchema rs schema w = (Return (), w1) ∧
    r = MkLoadResult (rows_value rs) (network_meta manifest).

(** Whatever the store holds under its two keys was put there by a network
    load that passed validation. *)
Definition store_validated `{Runtime} (st : Storage) : Prop :=
  (∀ s, items st !! LKG_KEY = Some s →
        ∃ env w r, validated_load env w r ∧ s = JSON_stringify (rows r))
  ∧ (∀ s, items st !! LKG_META_KEY = Some s →
          ∃ env w r, validated_load env w r ∧ s = JSON_stringify (meta r)).

(* ===================================================================== *)
(** ** A reference browser *)
(* ===================================================================== *)

(** Concrete instances of the browser facilities, to run the loader on
    concrete sites. They follow ECMA-262, RFC 8259 and FIPS 180-4 on the
    inputs they accept and say so when they do not accept one. *)

Module Reference.

Definition dquote : ascii := "034"%char.
Definition backslash : ascii := "092"%char.

(** *** JSON.stringify *)

Definition json_escape (c : ascii) : list ascii :=
  if decide (c = dquote) then [backslash; dquote]
  else if decide (c = backslash) then [backslash; backslash]
  else if decide (code c = 8)%N then [backslash; "b"%char]
  else if decide (code c = 9)%N then [backslash; "t"%char]
  else if decide (code c = 10)%N then [backslash; "n"%char]
  else if decide (code c = 12)%N then [backslash; "f"%char]
  else if decide (code c = 13)%N then [backslash; "r"%char]
  else if (code c <? 32)%N
       then [backslash; "u"%char; "0"%char; "0"%char;
             hex_digit false (code c / 16); hex_digit false (code c mod 16)]
  else [c].

Definition json_quote (s : string) : string :=
  of_chars (dquote :: (chars s ≫= json_escape) ++ [dquote]).

(** The JSON text of a value; [None] where [JSON.stringify] gives
    [undefined]. *)
Fixpoint json_text (v : value) : option string :=
  match v with
  | VUndef | VHost _ => None
  | VNull => Some "null"
  | VBool true => Some "true"
  | VBool false => Some "false"
  | VNum n =>
      Some (if bool_decide (n ∈ ["NaN"; "Infinity"; "-Infinity"]) then "null" else n)
  | VStr s => Some (json_quote s)
  | VArr items =>
      Some ("[" +:+ join "," (map (λ x, default "null" (json_text x)) items) +:+ "]")
  | VObj props =>
      Some ("{" +:+
            join "," (omap (λ kx, (λ t, json_quote kx.1 +:+ ":" +:+ t)
                                    <$> json_text kx.2) props)
            +:+ "}")
  end.

(** What [setItem] stores for [JSON.stringify(v)]. *)
Definition stringify (v : value) : string := default "undefined" (json_text v).

(** *** JSON.parse *)

Fixpoint skip_ws (cs : list ascii) : list ascii :=
  match cs with
  | c :: rest =>
      if bool_decide (code c ∈ [32; 9; 10; 13]%N) then skip_ws rest else cs
  | [] => []
  end.

(** [cs] without the prefix [lit], if it starts with it. *)
Fixpoint after (lit cs : list ascii) : option (list ascii) :=
  match lit, cs with
  | [], _ => Some cs
  | l :: lit', c :: cs' => if decide (l = c) then after lit' cs' else None
  | _ :: _, [] => None
  end.

Definition is_digit (c : ascii) : bool := bool_decide (48 ≤ code c ≤ 57)%N.

Definition hex_value (c : ascii) : option N :=
  let n := code c in
  if bool_decide (48 ≤ n ≤ 57)%N then Some (n - 48)%N
  else if bool_decide (97 ≤ n ≤ 102)%N then Some (n - 87)%N
  else if bool_decide (65 ≤ n ≤ 70)%N then Some (n - 55)%N
  else None.

(** UTF-8 of a code point of the basic plane that is not a surrogate. *)
Definition utf8 (n : N) : option (list ascii) :=
  let byte x := Ascii.ascii_of_N x in
  if (n <? 128)%N then Some [byte n]
  else if (n <? 2048)%N
       then Some [byte (192 + n / 64)%N; byte (128 + n mod 64)%N]
  else if bool_decide (55296 ≤ n ≤ 57343)%N then None
  else Some [byte (224 + n / 4096)%N; byte (128 + (n / 64) mod 64)%N;
             byte (128 + n mod 64)%N].

Definition unescape (c : ascii) : option ascii :=
  if decide (c = dquote) then Some dquote
  else if decide (c = backslash) then Some backslash
  else if decide (c = "/"%char) then Some "/"%char
  else if decide (c = "b"%char) then Some (Ascii.ascii_of_N 8)
  else if decide (c = "f"%char) then Some (Ascii.ascii_of_N 12)
  else if decide (c = "n"%char) then Some (Ascii.ascii_of_N 10)
  else if decide (c = "r"%char) then Some (Ascii.ascii_of_N 13)
  else if decide (c = "t"%char) then Some (Ascii.ascii_of_N 9)
  else None.

(** The characters of a string literal after its opening quote. *)
Fixpoint parse_chars (cs acc : list ascii) : option (string * list ascii) :=
  match cs with
  | [] => None
  | c :: rest =>
      if decide (c = dquote) then Some (of_chars (reverse acc), rest)
      else if decide (c = backslash) then
        match rest with
        | "u"%char :: h1 :: h2 :: h3 :: h4 :: rest' =>
            match hex_value h1, hex_value h2, hex_value h3, hex_value h4 with
            | Some a, Some b, Some c', Some d =>
                match utf8 (4096 * a + 256 * b + 16 * c' + d) with
                | Some bytes => parse_chars rest' (reverse bytes ++ acc)
                | None => None
                end
            | _, _, _, _ => None
            end
        | e :: rest' =>
            match unescape e with
            | Some x => parse_chars rest' (x :: acc)
            | None => None
            end
        | [] => None
        end
      else if (code c <? 32)%N then None
      else parse_chars rest (c :: acc)
  end.

Fixpoint span_digits (cs : list ascii) : list ascii * list ascii :=
  match cs with
  | c :: rest =>
      if is_digit c then let '(ds, tl) := span_digits rest in (c :: ds, tl)
      else ([], cs)
  | [] => ([], [])
  end.

Fixpoint drop_trailing_zeros (ds : list ascii) : list ascii :=
  match ds with
  | [] => []
  | d :: rest =>
      match drop_trailing_zeros rest with
      | [] => if decide (d = "0"%char) then [] else [d]
      | rest' => d :: rest'
      end
  end.

(** A number literal without exponent and of at most 15 digits, 6 of them
    after the point: [String(n)] is then the literal with the needless
    zeros and sign dropped. *)
Definition parse_number (cs : list ascii) : option (value * list ascii) :=
  let '(neg, cs1) := match cs with
                     | "-"%char :: rest => (true, rest)
                     | _ => (false, cs)
                     end in
  let '(int, cs2) := span_digits cs1 in
  let '(frac, cs3) := match cs2 with
                      | "."%char :: rest =>
                          let '(fs, tl) := span_digits rest in (Some fs, tl)
                      | _ => (None, cs2)
                      end in
  let leading_zero := match int with
                      | "0"%char :: _ :: _ => true
                      | _ => false
                      end in
  let exponent := match cs3 with
                  | c :: _ => bool_decide (c ∈ chars "eE")
                  | [] => false
                  end in
  let fs := default [] frac in
  if bool_decide (int = []) || leading_zero || bool_decide (frac = Some [])
     || exponent || bool_decide (15 < length int + length fs)
     || bool_decide (6 < length fs)
  then None
  else
    let fs' := drop_trailing_zeros fs in
    let zero := bool_decide (int = ["0"%char]) && bool_decide (fs' = []) in
    let sign := if neg && negb zero then ["-"%char] else [] in
    let shown := sign ++ int ++ (if bool_decide (fs' = []) then [] else "."%char :: fs') in
    Some (VNum (of_chars shown), cs3).

(** [o[k] = v] while an object literal is read. *)
Fixpoint obj_set (k : string) (v : value) (props : list (string * value))
    : list (string * value) :=
  match props with
  | [] => [(k, v)]
  | (k', v') :: rest =>
      if decide (k = k') then (k, v) :: rest else (k', v') :: obj_set k v rest
  end.

(** The elements of an array after the first [[], up to the closing []]. *)
Fixpoint parse_elements (pv : list ascii → option (value * list ascii))
    (n : nat) (cs : list ascii) (acc : list value)
    : option (list value * list ascii) :=
  match n with
  | 0 => None
  | S n' =>
      match pv cs with
      | Some (v, rest) =>
          match skip_ws rest with
          | c :: rest' =>
              if decide (c = ","%char) then parse_elements pv n' rest' (acc ++ [v])
              else if decide (c = "]"%char) then Some (acc ++ [v], rest')
              else None
          | [] => None
          end
      | None => None
      end
  end.

(** The members of an object after the first [{], up to the closing [}]. *)
Fixpoint parse_members (pv : list ascii → option (value * list ascii))
    (n : nat) (cs : list ascii) (acc : list (string * value))
    : option (list (string * value) * list ascii) :=
  match n with
  | 0 => None
  | S n' =>
      match skip_ws cs with
      | q :: rest =>
          if decide (q = dquote) then
            match parse_chars rest [] with
            | Some (k, rest1) =>
                match skip_ws rest1 with
                | ":"%char :: rest2 =>
                    match pv rest2 with
                    | Some (v, rest3) =>
                        match skip_ws rest3 with
                        | c :: rest4 =>
                            if decide (c = ","%char)
                            then parse_members pv n' rest4 (obj_set k v acc)
                            else if decide (c = "}"%char)
                            then Some (obj_set k v acc, rest4)
                            else None
                        | [] => None
                        end
                    | None => None
                    end
                | _ => None
                end
            | None => None
            end
          else None
      | [] => None
      end
  end.

Fixpoint parse_value (fuel : nat) (cs : list ascii) : option (value * list ascii) :=
  match fuel with
  | 0 => None
  | S fuel' =>
      match skip_ws cs with
      | [] => None
      | c :: rest =>
          if decide (c = dquote) then
            match parse_chars rest [] with
            | Some (s, rest') => Some (VStr s, rest')
            | None => None
            end
          else if decide (c = "["%char) then
            match skip_ws rest with
            | "]"%char :: rest' => Some (VArr [], rest')
            | _ =>
                match parse_elements (parse_value fuel') (length rest) rest [] with
                | Some (items, rest') => Some (VArr items, rest')
                | None => None
                end
            end
          else if decide (c = "{"%char) then
            match skip_ws rest with
            | "}"%char :: rest' => Some (VObj [], rest')
            | _ =>
                match parse_members (parse_value fuel') (length rest) rest [] with
                | Some (props, rest') => Some (VObj props, rest')
                | None => None
                end
            end
          else
            match after (chars "null") (c :: rest),
                  after (chars "true") (c :: rest),
                  after (chars "false") (c :: rest) with
            | Some rest', _, _ => Some (VNull, rest')
            | _, Some rest', _ => Some (VBool true, rest')
            | _, _, Some rest' => Some (VBool false, rest')
            | None, None, None => parse_number (c :: rest)
            end
      end
  end.

Definition parse (s : string) : completion value :=
  match parse_value (S (String.length s)) (chars s) with
  | Some (v, rest) =>
      if bool_decide (skip_ws rest = []) then Normal v
      else Abrupt "SyntaxError: Unexpected non-whitespace character after JSON"
  | None => Abrupt "SyntaxError: Unexpected token or end of JSON input"
  end.

(** *** Number(s) *)

(** White space and line terminators of ECMAScript, in UTF-8. *)
Definition js_spaces : list (list N) :=
  [[9]; [10]; [11]; [12]; [13]; [32]; [194; 160]; [225; 154; 128];
   [226; 128; 128]; [226; 128; 129]; [226; 128; 130]; [226; 128; 131];
   [226; 128; 132]; [226; 128; 133]; [226; 128; 134]; [226; 128; 135];
   [226; 128; 136]; [226; 128; 137]; [226; 128; 138]; [226; 128; 168];
   [226; 128; 169]; [226; 128; 175]; [226; 129; 159]; [227; 128; 128];
   [239; 187; 191]]%N.

(** [ns] without one leading white space character, if it starts with one. *)
Definition drop_space (spaces : list (list N)) (ns : list N) : option (list N) :=
  match omap (λ sp, if bool_decide (take (length sp) ns = sp)
                    then Some (drop (length sp) ns) else None) spaces with
  | rest :: _ => Some rest
  | [] => None
  end.

Fixpoint drop_spaces_n (spaces : list (list N)) (fuel : nat) (ns : list N) : list N :=
  match fuel with
  | 0 => ns
  | S fuel' =>
      match drop_space spaces ns with
      | Some rest => drop_spaces_n spaces fuel' rest
      | None => ns
      end
  end.

(** The text between leading and trailing white space. *)
Definition js_trim (s : string) : list ascii :=
  let ns := code <$> chars s in
  let front := drop_spaces_n js_spaces (length ns) ns in
  let back := drop_spaces_n (reverse <$> js_spaces) (length front) (reverse front) in
  Ascii.ascii_of_N <$> reverse back.

Definition all_of (p : ascii → bool) (cs : list ascii) : bool :=
  forallb p cs && negb (bool_decide (cs = [])).

(** [digits], [digits.], [digits.digits] or [.digits], then an optional
    exponent. *)
Definition is_decimal (cs : list ascii) : bool :=
  let '(int, cs1) := span_digits cs in
  let '(dot, frac, cs2) :=
    match cs1 with
    | "."%char :: rest => let '(fs, tl) := span_digits rest in (true, fs, tl)
    | _ => (false, [], cs1)
    end in
  let mantissa := negb (bool_decide (int = [])) || negb (bool_decide (frac = [])) in
  let exponent :=
    match cs2 with
    | [] => true
    | e :: rest =>
        bool_decide (e ∈ chars "eE") &&
        all_of is_digit (match rest with
                         | s :: rest' =>
                             if bool_decide (s ∈ chars "+-") then rest' else rest
                         | [] => []
                         end)
    end in
  mantissa && exponent.

(** [StringToNumber] yields a number other than NaN. *)
Definition is_numeric (s : string) : bool :=
  let cs := js_trim s in
  let unsigned := match cs with
                  | c :: rest => if bool_decide (c ∈ chars "+-") then rest else cs
                  | [] => []
                  end in
  match cs with
  | [] => true
  | "0"%char :: x :: rest =>
      if bool_decide (x ∈ chars "xX")
      then all_of (λ c, bool_decide (is_Some (hex_value c))) rest
      else if bool_decide (x ∈ chars "oO")
      then all_of (λ c, bool_decide (48 ≤ code c ≤ 55)%N) rest
      else if bool_decide (x ∈ chars "bB")
      then all_of (λ c, bool_decide (48 ≤ code c ≤ 49)%N) rest
      else is_decimal cs
  | _ => bool_decide (unsigned = chars "Infinity") || is_decimal unsigned
  end.

Definition browser : Runtime := {|
  JSON_parse := parse;
  JSON_stringify := stringify;
  Number_isNaN := λ s, negb (is_numeric s);
  JSON_parse_null := eq_refl
|}.

(** *** Papa.parse, for CSV text without quoted fields *)

(** The pieces of [cs] between occurrences of [sep]. *)
Fixpoint split_on (sep : ascii) (cs : list ascii) : list (list ascii) :=
  match cs with
  | [] => [[]]
  | c :: rest =>
      match split_on sep rest with
      | piece :: pieces =>
          if decide (c = sep) then [] :: piece :: pieces
          else (c :: piece) :: pieces
      | [] => [[c]]
      end
  end.

Definition drop_cr (line : list ascii) : list ascii :=
  match reverse line with
  | c :: rest => if decide (code c = 13)%N then reverse rest else line
  | [] => line
  end.

(** One data line as an object keyed by the header; fields beyond the
    header are collected under [__parsed_extra]. *)
Definition csv_row (names : list string) (fields : list string) : row :=
  let named := zip names (VStr <$> fields) in
  let extra := drop (length names) fields in
  if bool_decide (extra = []) then named
  else named ++ [("__parsed_extra", VArr (VStr <$> extra))].

Definition papa_parse (config : papa_config) (text : string)
    : completion (list row) :=
  if bool_decide (dquote ∈ chars text)
  then Abrupt "quoted fields are outside the reference decoder"
  else if negb (header config) || dynamicTyping config
  then Abrupt "only header:true, dynamicTyping:false is decoded"
  else
    let lines := (λ l, of_chars <$> split_on ","%char (drop_cr l))
                   <$> split_on (Ascii.ascii_of_N 10) (chars text) in
    let kept := match skipEmptyLines config with
                | SkipNone => lines
                | SkipEmpty => filter (λ fs, fs ≠ [""]) lines
                | SkipGreedy => filter (λ fs, ¬ Forall (λ f, trim f = "") fs) lines
                end in
    match kept with
    | [] => Normal []
    | names :: data =>
        Normal (csv_row (transformHeader config <$> names) <$> data)
    end.

(** *** SHA-256 (FIPS 180-4), on 32-bit words held in [N] *)

Definition w32 (x : N) : N := N.land x 4294967295.
Definition add32 (x y : N) : N := w32 (x + y).
Definition rotr (n x : N) : N := N.lor (N.shiftr x n) (w32 (N.shiftl x (32 - n))).
Definition not32 (x : N) : N := N.lxor x 4294967295.

Definition Ch (x y z : N) : N := N.lxor (N.land x y) (N.land (not32 x) z).
Definition Maj (x y z : N) : N :=
  N.lxor (N.lxor (N.land x y) (N.land x z)) (N.land y z).
Definition Sigma0 (x : N) : N := N.lxor (N.lxor (rotr 2 x) (rotr 13 x)) (rotr 22 x).
Definition Sigma1 (x : N) : N := N.lxor (N.lxor (rotr 6 x) (rotr 11 x)) (rotr 25 x).
Definition sigma0 (x : N) : N := N.lxor (N.lxor (rotr 7 x) (rotr 18 x)) (N.shiftr x 3).
Definition sigma1 (x : N) : N := N.lxor (N.lxor (rotr 17 x) (rotr 19 x)) (N.shiftr x 10).

(** The round constants and the initial hash value are the first 32 bits
    of the fractional parts of the cube roots of the first 64 primes and of
    the square roots of the first 8. *)
Definition is_prime (n : nat) : bool :=
  bool_decide (1 < n) && forallb (λ d, negb (n `mod` d =? 0)) (seq 2 (n - 2)).

Definition primes (bound : nat) : list N :=
  N.of_nat <$> filter (λ n, is_prime n = true) (seq 2 bound).

(** The integer cube root of [n], found bit by bit from bit [bits - 1]. *)
Fixpoint cube_root (bits : nat) (n acc : N) : N :=
  match bits with
  | 0 => acc
  | S bits' =>
      let next := (acc + 2 ^ N.of_nat bits')%N in
      if (next * next * next <=? n)%N then cube_root bits' n next
      else cube_root bits' n acc
  end.

Definition K256 : list N :=
  Eval vm_compute in
    ((λ p, w32 (cube_root 40 (p * 2 ^ 96) 0))%N <$> take 64 (primes 320)).

Definition H256 : list N :=
  Eval vm_compute in ((λ p, w32 (N.sqrt (p * 2 ^ 64)))%N <$> take 8 (primes 20)).

(** Big-endian bytes of [x], [n] of them. *)
Fixpoint be_bytes (n : nat) (x : N) : list N :=
  match n with
  | 0 => []
  | S n' => be_bytes n' (x / 256) ++ [x mod 256]%N
  end.

Fixpoint be_words (bytes : list N) : list N :=
  match bytes with
  | a :: b :: c :: d :: rest =>
      (16777216 * a + 65536 * b + 256 * c + d)%N :: be_words rest
  | _ => []
  end.

(** The message, a one bit, zeros up to 56 modulo 64 bytes, and the length
    in bits. *)
Definition pad (msg : list N) : list N :=
  let len := length msg in
  let zeros := (64 - (len + 9) `mod` 64) `mod` 64 in
  msg ++ [128%N] ++ replicate zeros 0%N ++ be_bytes 8 (8 * N.of_nat len).

(** The words 16..63 of the message schedule, [sched] holding the words so
    far, latest first. *)
Fixpoint schedule (n : nat) (sched : list N) : list N :=
  match n with
  | 0 => reverse sched
  | S n' =>
      match sched !! 1, sched !! 6, sched !! 14, sched !! 15 with
      | Some w2, Some w7, Some w15, Some w16 =>
          schedule n' (add32 (add32 (sigma1 w2) w7) (add32 (sigma0 w15) w16)
                       :: sched)
      | _, _, _, _ => reverse sched
      end
  end.

Definition round (st : list N) (kw : N * N) : list N :=
  match st with
  | [a; b; c; d; e; f; g; h] =>
      let t1 := add32 (add32 (add32 h (Sigma1 e)) (add32 (Ch e f g) kw.1)) kw.2 in
      let t2 := add32 (Sigma0 a) (Maj a b c) in
      [add32 t1 t2; a; b; c; add32 d t1; e; f; g]
  | _ => st
  end.

Definition compress (st : list N) (block : list N) : list N :=
  let ws := schedule 48 (reverse (be_words block)) in
  zip_with add32 st (foldl round st (zip K256 ws)).

Fixpoint blocks (n : nat) (bytes : list N) : list (list N) :=
  match n with
  | 0 => []
  | S n' => take 64 bytes :: blocks n' (drop 64 bytes)
  end.

Definition sha256_bytes (text : string) : list byte :=
  let msg := pad (code <$> chars text) in
  let st := foldl compress H256 (blocks (length msg / 64) msg) in
  (λ n, default Byte.x00 (Byte.of_N n)) <$> (st ≫= be_bytes 4).

(** *** Sites *)

(** A site serves the listed resources and answers 404 for the rest. *)
Definition site (served : gmap string string) (papa_loaded : bool) : Env := {|
  fetch := λ url,
    Normal match served !! url with
           | Some body => MkResponse true 200 (Normal body)
           | None => MkResponse false 404 (Normal "Not Found")
           end;
  subtle_digest := λ text, Normal (sha256_bytes text);
  Papa := if papa_loaded then Some papa_parse else None
|}.

(** No network at all; the decoder script is cached. *)
Definition offline : Env := {|
  fetch := λ _, Abrupt "Failed to fetch";
  subtle_digest := λ text, Normal (sha256_bytes text);
  Papa := Some papa_parse
|}.

(** A fresh browser profile whose storage takes [quota] characters. *)
Definition fresh (quota : nat) : World :=
  MkWorld (MkStorage true quota ∅) [] None None.

End Reference.

(* ===================================================================== *)
(** ** Concrete sites *)
(* ===================================================================== *)

Module Sites.
Import Reference.
#[local] Existing Instance browser.

Definition newline : string := of_chars [Ascii.ascii_of_N 10].

(** The example of the specification: a two-column payload, its manifest
    carrying the payload's digest (upper case in part), and its schema. *)
Definition csv_ab : string := "a,b" +:+ newline +:+ "1,2" +:+ newline +:+ "3,4".

Definition manifest_ab : value :=
  VObj [("url", VStr "d.csv"); ("version", VStr "1");
        ("sha256",
         VStr "0C7519A734CD41AC2c8fcc599c713091d0dddb2ccd90ecad7f30e4d9575aed40")].

Definition schema_ab : value :=
  VObj [("required_columns", VArr [VStr "a"; VStr "b"]);
        ("numeric_columns", VArr [VStr "b"])].

Definition site_ab : Env :=
  site (list_to_map [("data/manifest.json", stringify manifest_ab);
                     ("data/schema_v1.json", stringify schema_ab);
                     ("d.csv?v=1", csv_ab)]) true.

(** The same site after the payload grew; the manifest names no digest. *)
Definition csv_grown : string :=
  csv_ab +:+ newline +:+ "5,n/a" +:+ newline +:+ "7,95%".

Definition manifest_grown : value :=
  VObj [("url", VStr "d.csv"); ("version", VStr "2")].

Definition site_grown : Env :=
  site (list_to_map [("data/manifest.json", stringify manifest_grown);
                     ("data/schema_v1.json", stringify schema_ab);
                     ("d.csv?v=2", csv_grown)]) true.

(** The site serving a payload that does not match the manifest's digest. *)
Definition site_tampered : Env :=
  site (list_to_map [("data/manifest.json", stringify manifest_ab);
                     ("data/schema_v1.json", stringify schema_ab);
                     ("d.csv?v=1", csv_grown)]) true.

(** The digest [sha256] computes in the reference browser. *)
Definition digest_of (text : string) : string :=
  join "" ((λ b, padStart 2 "0" (toString16 b)) <$> sha256_bytes text).

(** The rows [papa_parse] decodes from the two payloads. *)
Definition rows_ab : list row :=
  [[("a", VStr "1"); ("b", VStr "2")]; [("a", VStr "3"); ("b", VStr "4")]].

Definition rows_grown : list row :=
  rows_ab ++ [[("a", VStr "5"); ("b", VStr "n/a")];
              [("a", VStr "7"); ("b", VStr "95%")]].

(** A profile that loaded [site_ab] once, with plenty of storage, and one
    whose storage is nearly full after that. *)
Definition cached_world : World :=
  Eval vm_compute in (loadData site_ab (fresh 1000)).2.
Definition tight_world : World :=
  Eval vm_compute in (loadData site_ab (fresh 210)).2.

(** A profile that loaded [site_grown] and has room left for new rows but
    not for a longer meta. *)
Definition grown_world : World :=
  Eval vm_compute in (loadData site_grown (fresh 200)).2.

End Sites.

(* ===================================================================== *)
(** ** Notions for the further properties *)
(* ===================================================================== *)

(** The value of a lower-case hexadecimal digit. *)
Definition nibble (c : ascii) : option N :=
  let n := code c in
  if bool_decide (48 ≤ n ≤ 57)%N then Some (n - 48)%N
  else if bool_decide (97 ≤ n ≤ 102)%N then Some (n - 87)%N
  else None.

(** The bytes a lower-case hexadecimal text stands for, two digits each. *)
Fixpoint unhex (cs : list ascii) : option (list byte) :=
  match cs with
  | [] => Some []
  | hi :: lo :: rest =>
      match nibble hi, nibble lo, unhex rest with
      | Some a, Some b, Some bs =>
          match Byte.of_N (16 * a + b) with
          | Some x => Some (x :: bs)
          | None => None
          end
      | _, _, _ => None
      end
  | [_] => None
  end.

(** The URL [fetchText] requests: [final] in the source. *)
Definition final_url (url version : value) : string :=
  if truthy version
  then to_string url +:+ "?v=" +:+ encodeURIComponent version
  else to_string url.

(** Undoing the percent-encoding of [encodeURIComponent], byte by byte. *)
Fixpoint uri_decode (cs : list ascii) : list ascii :=
  match cs with
  | [] => []
  | c :: rest =>
      match rest with
      | hi :: lo :: rest' =>
          if decide (c = "%"%char)
          then match Reference.hex_value hi, Reference.hex_value lo with
               | Some a, Some b => Ascii.ascii_of_N (16 * a + b) :: uri_decode rest'
               | _, _ => c :: uri_decode rest
               end
          else c :: uri_decode rest
      | _ => c :: uri_decode rest
      end
  end.

(** The URLs the network path requests in [env], in order: the manifest,
    then the schema if the manifest was read, then the payload if the
    schema was read too. *)
Definition requests `{Runtime} (env : Env) : list string :=
  let body url :=
    match fetch env url with
    | Normal res => if ok res then text res else Abrupt ""
    | Abrupt msg => Abrupt msg
    end in
  let manifest_url := final_url (VStr MANIFEST_URL) VUndef in
  manifest_url ::
  match body manifest_url with
  | Abrupt _ => []
  | Normal manifestText =>
      match JSON_parse manifestText with
      | Abrupt _ => []
      | Normal manifest =>
          match field manifest "schema_version" with
          | Abrupt _ => []
          | Normal schema_version =>
              let schema_url :=
                final_url (VStr SCHEMA_URL) (js_or schema_version (VStr "")) in
              schema_url ::
              match body schema_url with
              | Abrupt _ => []
              | Normal schemaText =>
                  match JSON_parse schemaText,
                        field manifest "url", field manifest "version" with
                  | Normal _, Normal url, Normal version => [final_url url version]
                  | _, _, _ => []
                  end
              end
          end
      end
  end.

(** Further sites and worlds for the properties above. *)
Module MoreSites.
Import Reference Sites.
#[local] Existing Instance browser.

(** [site_ab] served to a page that did not load the decoder script. *)
Definition site_no_decoder : Env :=
  site (list_to_map [("data/manifest.json", stringify manifest_ab);
                     ("data/schema_v1.json", stringify schema_ab);
                     ("d.csv?v=1", csv_ab)]) false.

(** A manifest whose digest was written as a number. *)
Definition manifest_number : value :=
  VObj [("url", VStr "d.csv"); ("version", VStr "1"); ("sha256", VNum "123")].

Definition site_number : Env :=
  site (list_to_map [("data/manifest.json", stringify manifest_number);
                     ("data/schema_v1.json", stringify schema_ab);
                     ("d.csv?v=1", csv_ab)]) true.

(** A payload with a header line and nothing else. *)
Definition site_header_only : Env :=
  site (list_to_map [("data/manifest.json", stringify manifest_grown);
                     ("data/schema_v1.json", stringify schema_ab);
                     ("d.csv?v=2", "a,b")]) true.

(** [site_ab] serving one more, unrelated resource. *)
Definition site_ab_more : Env :=
  site (list_to_map [("data/manifest.json", stringify manifest_ab);
                     ("data/schema_v1.json", stringify schema_ab);
                     ("d.csv?v=1", csv_ab);
                     ("data/other.json", "{}")]) true.

(** The digest of [csv_ab] as [sha256] prints it. *)
Definition digest_ab : string := Eval vm_compute in digest_of csv_ab.

(** A profile whose store was edited by hand: no rows, but an array. *)
Definition edited_world : World :=
  MkWorld (MkStorage true 1000
             (list_to_map [(LKG_KEY, "[]");
                           (LKG_META_KEY, stringify (network_meta manifest_ab))]))
          [] None None.

(** The storage of a fresh profile after the rows of [site_ab] were
    written, and after its meta was written as well. *)
Definition rows_stored : Storage := Eval vm_compute in
  default (localStorage (fresh 1000))
    (store_put LKG_KEY (stringify (rows_value rows_ab))
       (localStorage (fresh 1000))).

Definition both_stored : Storage := Eval vm_compute in
  default rows_stored
    (store_put LKG_META_KEY (stringify (network_meta manifest_ab)) rows_stored).

(** The storage of [grown_world] after the rows of [site_ab] were written
    over the longer ones it held. *)
Definition grown_rows_stored : Storage := Eval vm_compute in
  default (localStorage grown_world)
    (store_put LKG_KEY (stringify (rows_value rows_ab))
       (localStorage grown_world)).

(** What a network load of [site_ab] returns. *)
Definition result_ab : LoadResult :=
  MkLoadResult (rows_value rows_ab) (network_meta manifest_ab).

End MoreSites.


(* ===================================================================== *)
(** ** How the computations run *)
(* ===================================================================== *)

(** Unfold one [let*]. *)
Lemma bind_run {A B} (m : Js A) (k : A → Js B) w :
  bind m k w = match m w with
               | (Return a, w') => k a w'
               | (Throw e, w') => (Throw e, w')
               end.
Proof. reflexivity. Qed.

Lemma bind_return {A B} (m : Js A) (k : A → Js B) w a w' :
  m w = (Return a, w') → bind m k w = k a w'.
Proof. intros Hm. by rewrite bind_run, Hm. Qed.

Lemma bind_throw {A B} (m : Js A) (k : A → Js B) w e w' :
  m w = (Throw e, w') → bind m k w = (Throw e, w').
Proof. intros Hm. by rewrite bind_run, Hm. Qed.

Lemma host_run {A} (c : completion A) w :
  host c w = (match c with
              | Normal a => Return a
              | Abrupt msg => Throw (Exn HostError msg)
              end, w).
Proof. by destruct c. Qed.

Lemma quiet_ret {A} (a : A) : quiet (ret a).
Proof. done. Qed.

Lemma quiet_throw {A} k msg : quiet (@throw A k msg).
Proof. done. Qed.

Lemma quiet_host {A} (c : completion A) : quiet (host c).
Proof. intros w. by rewrite host_run. Qed.

Lemma quiet_bind {A B} (m : Js A) (k : A → Js B) :
  quiet m → (∀ a, quiet (k a)) → quiet (bind m k).
Proof.
  intros Hm Hk w. rewrite bind_run. specialize (Hm w).
  destruct (m w) as [[a|e] w1]; simpl in *; subst; [apply Hk | done].
Qed.

Lemma blind_host {A} (c : completion A) : blind (host c).
Proof. intros w1 w2. by rewrite !host_run. Qed.

Lemma blind_ret {A} (a : A) : blind (ret a).
Proof. done. Qed.

Lemma blind_throw {A} k msg : blind (@throw A k msg).
Proof. done. Qed.

Lemma blind_bind {A B} (m : Js A) (k : A → Js B) :
  blind m → (∀ a, blind (k a)) → blind (bind m k).
Proof.
  intros Hm Hk w1 w2. rewrite !bind_run. specialize (Hm w1 w2).
  destruct (m w1) as [[a1|e1] u1], (m w2) as [[a2|e2] u2];
    simpl in *; try congruence.
  injection Hm as ->. apply Hk.
Qed.

(** A quiet, blind computation has one result, whatever the world. *)
Lemma quiet_blind_run {A} (m : Js A) w1 w2 o :
  quiet m → blind m → m w1 = (o, w1) → m w2 = (o, w2).
Proof.
  intros Hq Hb Hm. pose proof (Hq w2) as Hq2. specialize (Hb w1 w2).
  rewrite Hm in Hb. destruct (m w2) as [o2 u2]. simpl in *. congruence.
Qed.

Lemma quiet_run {A} (m : Js A) w o w' : quiet m → m w = (o, w') → w' = w.
Proof. intros Hq Hm. specialize (Hq w). by rewrite Hm in Hq. Qed.

Section LoaderFacts.
Context `{Runtime} (env : Env).

Lemma fetchText_quiet url version : quiet (fetchText env url version).
Proof.
  unfold fetchText. apply quiet_bind; [apply quiet_host|].
  intros res. destruct (negb (ok res)); [apply quiet_throw | apply quiet_host].
Qed.

Lemma fetchText_blind url version : blind (fetchText env url version).
Proof.
  unfold fetchText. apply blind_bind; [apply blind_host |].
  intros res. destruct (negb (ok res)); [done | apply blind_host].
Qed.

Lemma sha256_quiet text : quiet (sha256 env text).
Proof. unfold sha256. apply quiet_bind; [apply quiet_host | done]. Qed.

Lemma sha256_blind text : blind (sha256 env text).
Proof.
  unfold sha256. apply blind_bind; [apply blind_host | done].
Qed.

Lemma parseCSV_quiet text : quiet (parseCSV env text).
Proof.
  unfold parseCSV. destruct (Papa env); [apply quiet_host | apply quiet_throw].
Qed.

Lemma parseCSV_blind text : blind (parseCSV env text).
Proof. unfold parseCSV. destruct (Papa env); [apply blind_host | done]. Qed.

End LoaderFacts.

(* ===================================================================== *)
(** ** The schema validator *)
(* ===================================================================== *)

Lemma logged_nil w : logged [] w = w.
Proof. destruct w. unfold logged. simpl. by rewrite app_nil_r. Qed.

Lemma logged_app l1 l2 w : logged l2 (logged l1 w) = logged (l1 ++ l2) w.
Proof. unfold logged. simpl. by rewrite app_assoc. Qed.

Section Validator.
Context `{Runtime}.

Lemma sample_column_run rows col steps : ∀ i w,
  i + steps ≤ length rows →
  sample_column rows col i steps w
  = (Return (), logged (sample_warning col (take steps (drop i rows))) w).
Proof.
  induction steps as [|steps IH]; intros i w Hlen; simpl.
  - by rewrite logged_nil.
  - destruct (rows !! i) as [r|] eqn:Hr.
    2: { apply lookup_ge_None in Hr. lia. }
    rewrite (drop_S _ _ _ Hr). simpl. unfold sample_warning. simpl.
    fold (offending col r).
    destruct (offending col r) eqn:Hoff.
    + rewrite decide_True by done. done.
    + rewrite decide_False by (by destruct (offending col r)).
      rewrite IH by lia. unfold sample_warning.
      destruct (list_find _ (take steps (drop (S i) rows))) as [[j r']|]; done.
Qed.

Lemma for_of_sample_run rows numCols : ∀ w,
  for_of numCols (λ col, sample_column rows col 0 (Nat.min (length rows) 50)) w
  = (Return (), logged (numeric_warnings numCols rows) w).
Proof.
  induction numCols as [|col numCols IH]; intros w; simpl.
  - by rewrite logged_nil.
  - rewrite bind_run, sample_column_run by lia.
    rewrite IH, logged_app. unfold numeric_warnings. simpl.
    rewrite drop_0. do 3 f_equal.
    destruct (decide (length rows ≤ 50)).
    + rewrite Nat.min_l by done. by rewrite !take_ge by lia.
    + by rewrite Nat.min_r by lia.
Qed.

(** What the validator does on a non-empty dataset whose schema is
    well-formed. *)
Lemma validateSchema_run row0 rest schema req num w :
  required_of schema = Some req →
  numeric_of schema = Some num →
  validateSchema (row0 :: rest) schema w
  = if decide (missing_in row0 req = [])
    then (Return (), logged (numeric_warnings num (row0 :: rest)) w)
    else (Throw (Exn MissingColumnsError
                     ("missing columns: " +:+ array_join ", " (missing_in row0 req))),
          w).
Proof.
  unfold required_of, numeric_of, validateSchema. intros Hreq Hnum.
  destruct (field schema "required_columns") as [r|] eqn:Hr; [|done].
  rewrite bind_run, host_run.
  destruct (js_or r (VArr [])) as [| | | | |cs| |] eqn:Hor; try done.
  injection Hreq as ->. simpl array_filter. rewrite bind_run, host_run.
  fold (missing_in row0 req).
  destruct (decide (missing_in row0 req = [])) as [Hm|Hm].
  - rewrite bool_decide_true by done. cbn [negb].
    destruct (field schema "numeric_columns") as [n|] eqn:Hn; [|done].
    rewrite bind_run, host_run.
    destruct (iterate (js_or n (VArr []))) as [cs|] eqn:Hit; [|done].
    injection Hnum as ->. rewrite bind_run, host_run.
    apply for_of_sample_run.
  - by rewrite bool_decide_false by done.
Qed.

End Validator.

Section ValidatorFacts.
Context `{Runtime}.

Lemma elem_of_missing_in (r : row) (cs : list value) (c : value) :
  c ∈ missing_in r cs ↔ c ∈ cs ∧ includes (keys r) c = false.
Proof.
  unfold missing_in. rewrite list_elem_of_filter.
  destruct (includes (keys r) c); simpl; intuition congruence.
Qed.

Lemma missing_in_nil_iff (r : row) (cs : list value) :
  missing_in r cs = [] ↔ ∀ c, c ∈ cs → includes (keys r) c = true.
Proof.
  split.
  - intros Hnil c Hc. destruct (includes (keys r) c) eqn:Hin; [done|].
    assert (c ∈ missing_in r cs) as Hm by by apply elem_of_missing_in.
    rewrite Hnil in Hm. by apply elem_of_nil in Hm.
  - intros Hall. apply elem_of_nil_inv. intros c [Hc Hin]%elem_of_missing_in.
    rewrite (Hall c Hc) in Hin. done.
Qed.

(** The numeric check itself cannot fail. *)
Lemma numeric_check_returns (rows : list row) (numCols : list value) w :
  ∃ w', for_of numCols
          (λ col, sample_column rows col 0 (Nat.min (length rows) 50)) w
        = (Return (), w').
Proof. rewrite for_of_sample_run. eauto. Qed.

(** Every way the validator can end on a non-empty dataset. *)
Lemma validateSchema_cases row0 rest schema w :
  (∃ req, required_of schema = Some req ∧ missing_in row0 req ≠ [] ∧
     validateSchema (row0 :: rest) schema w
     = (Throw (Exn MissingColumnsError
                   ("missing columns: " +:+ array_join ", " (missing_in row0 req))),
        w))
  ∨ (∃ req num, required_of schema = Some req ∧ missing_in row0 req = [] ∧
       numeric_of schema = Some num ∧
       validateSchema (row0 :: rest) schema w
       = (Return (), logged (numeric_warnings num (row0 :: rest)) w))
  ∨ (∃ msg, validateSchema (row0 :: rest) schema w
            = (Throw (Exn HostError msg), w)
            ∧ (required_of schema = None
               ∨ ∃ req, required_of schema = Some req ∧ missing_in row0 req = []
                        ∧ numeric_of schema = None)).
Proof.
  unfold validateSchema, required_of, numeric_of.
  destruct (field schema "required_columns") as [r|msg] eqn:Hr;
    rewrite bind_run, host_run; [|right; right; eauto].
  destruct (array_filter _ (js_or r (VArr []))) as [missing|msg] eqn:Hf;
    rewrite bind_run, host_run.
  2: { right; right. exists msg. split; [done|left].
       by destruct (js_or r (VArr [])). }
  destruct (js_or r (VArr [])) as [| | | | |req| |]; try done.
  injection Hf as <-. fold (missing_in row0 req).
  destruct (decide (missing_in row0 req = [])) as [Hm|Hm].
  - rewrite bool_decide_true by done. cbn [negb]. right.
    destruct (field schema "numeric_columns") as [n|msg] eqn:Hn;
      rewrite bind_run, host_run; [|right; eauto 10].
    destruct (iterate (js_or n (VArr []))) as [num|msg] eqn:Hit;
      rewrite bind_run, host_run; [|right; eauto 10].
    left. exists req, num. by rewrite for_of_sample_run.
  - rewrite bool_decide_false by done. left. eauto.
Qed.

Lemma validateSchema_empty schema w :
  validateSchema [] schema w = (Throw (Exn EmptyDatasetError "empty dataset"), w).
Proof. done. Qed.

(** The validator only ever writes to the console, and only when it
    returns. *)
Lemma validateSchema_throw_world rows schema w e w' :
  validateSchema rows schema w = (Throw e, w') → w' = w.
Proof.
  destruct rows as [|row0 rest]; [by intros [= _ <-]|].
  destruct (validateSchema_cases row0 rest schema w)
    as [(req & _ & _ & ->)|[(req & num & _ & _ & _ & ->)|(msg & -> & _)]];
    by intros [= ].
Qed.

Lemma validateSchema_return_world rows schema w w' :
  validateSchema rows schema w = (Return (), w') →
  ∃ entries, w' = logged entries w.
Proof.
  destruct rows as [|row0 rest]; [done|].
  destruct (validateSchema_cases row0 rest schema w)
    as [(req & _ & _ & ->)|[(req & num & _ & _ & _ & ->)|(msg & -> & _)]];
    intros [= ]; eauto.
Qed.

Lemma sample_column_blind rows col steps : ∀ i,
  blind (sample_column rows col i steps).
Proof.
  induction steps as [|steps IH]; intros i; simpl; [done|].
  destruct (rows !! i) as [r|]; [|done].
  destruct (nonblank _ && _); [done | apply IH].
Qed.

Lemma for_of_blind {A} (xs : list A) (body : A → Js unit) :
  (∀ x, blind (body x)) → blind (for_of xs body).
Proof.
  intros Hbody. induction xs as [|x xs IH]; simpl; [done|].
  by apply blind_bind.
Qed.

(** Whether the validator returns or throws, and what it throws, does not
    depend on the world. *)
Lemma validateSchema_blind rows schema : blind (validateSchema rows schema).
Proof.
  unfold validateSchema. destruct rows as [|row0 rest]; [done|].
  apply blind_bind; [apply blind_host|]. intros required.
  apply blind_bind; [apply blind_host|]. intros missing.
  destruct (negb _); [done|].
  apply blind_bind; [apply blind_host|]. intros numeric.
  apply blind_bind; [apply blind_host|]. intros numCols.
  apply for_of_blind. intros col. apply sample_column_blind.
Qed.

End ValidatorFacts.

(* ===================================================================== *)
(** ** The LKG store *)
(* ===================================================================== *)

Lemma with_storage_id w : with_storage (localStorage w) w = w.
Proof. by destruct w. Qed.

Lemma setItem_run k v w :
  setItem k v w
  = match store_put k v (localStorage w) with
    | Some st => (Return (), with_storage st w)
    | None =>
        (Throw (Exn HostError (if enabled (localStorage w)
                               then "QuotaExceededError"
                               else "SecurityError: storage is disabled")), w)
    end.
Proof.
  unfold setItem, store_put. destruct (enabled (localStorage w)); simpl; [|done].
  by destruct (bool_decide _).
Qed.

Section StoreFacts.
Context `{Runtime}.

Lemma saveLKG_run meta rows w :
  saveLKG meta rows w = (Return (), with_storage (saved meta rows (localStorage w)) w).
Proof.
  unfold saveLKG, try_catch, saved. rewrite bind_run, setItem_run.
  destruct (store_put LKG_KEY _ _) as [st1|]; [|by rewrite with_storage_id].
  rewrite setItem_run. simpl.
  by destruct (store_put LKG_META_KEY _ st1) as [st2|].
Qed.

Lemma loadLKG_run w : loadLKG w = (Return (read_lkg (localStorage w)), w).
Proof.
  unfold loadLKG, try_catch, read_lkg, item_or_null, getItem, text_or_null,
    bind, ret, host, throw.
  destruct (enabled (localStorage w)) eqn:Hen; [|done].
  destruct (JSON_parse _) as [rows|]; [|done]. simpl. rewrite Hen.
  destruct (JSON_parse _) as [meta|]; [|done].
  unfold ret. by destruct (truthy rows), (truthy meta).
Qed.

End StoreFacts.

(* ===================================================================== *)
(** ** The network path *)
(* ===================================================================== *)

Section NetworkFacts.
Context `{Runtime} (env : Env).

Lemma host_throw_kind {A} (c : completion A) w e w' :
  host c w = (Throw e, w') → kind e = HostError ∧ w' = w.
Proof. rewrite host_run. destruct c; by intros [= <- <-]. Qed.

Lemma fetchText_throw_kind url version w e w' :
  fetchText env url version w = (Throw e, w') →
  kind e = FetchError ∨ kind e = HostError.
Proof.
  unfold fetchText. rewrite bind_run, host_run.
  destruct (fetch env _) as [res|msg]; [|intros [= <- _]; by right].
  destruct (negb (ok res)); [intros [= <- _]; by left|].
  intros [? _]%host_throw_kind. by right.
Qed.

Lemma sha256_throw_kind text w e w' :
  sha256 env text w = (Throw e, w') → kind e = HostError.
Proof.
  unfold sha256. rewrite bind_run, host_run.
  destruct (subtle_digest env text); [done|by intros [= <- _]].
Qed.

(** The rest of the network path once the digest is known. *)
Lemma loadNetwork_fetched w manifest schema csvText hash expected :
  Fetched env w manifest schema csvText hash expected →
  loadNetwork env w
  = match checksum_differs expected hash with
    | None =>
        (Throw (Exn HostError "manifest.sha256.toLowerCase is not a function"), w)
    | Some true =>
        (Throw (Exn ChecksumMismatchError
                    ("Checksum mismatch. Expected " +:+ to_string expected
                     +:+ " got " +:+ hash)), w)
    | Some false =>
        match parseCSV env csvText w with
        | (Throw e, _) => (Throw e, w)
        | (Return rs, _) =>
            match validateSchema rs schema w with
            | (Throw e, _) => (Throw e, w)
            | (Return _, w1) =>
                (Return (MkLoadResult (rows_value rs) (network_meta manifest)),
                 with_storage (saved (network_meta manifest) (rows_value rs)
                                     (localStorage w1)) w1)
            end
        end
    end.
Proof.
  intros [(manifestText & Hmt & Hm) (sv & schemaText & Hsv & Hst & Hs)
          (url & version & Hurl & Hver & Hcsv) Hhash Hexp].
  unfold loadNetwork.
  rewrite (bind_return _ _ _ _ _ Hmt), bind_run, host_run, Hm.
  rewrite bind_run, host_run, Hsv.
  rewrite (bind_return _ _ _ _ _ Hst), bind_run, host_run, Hs.
  rewrite bind_run, host_run, Hurl, bind_run, host_run, Hver.
  rewrite (bind_return _ _ _ _ _ Hcsv), (bind_return _ _ _ _ _ Hhash).
  rewrite bind_run, host_run, Hexp.
  destruct (checksum_differs expected hash) as [[]|]; [done| |done].
  rewrite bind_run.
  destruct (parseCSV env csvText w) as [[rs|e] w1] eqn:Hp;
    pose proof (quiet_run _ _ _ _ (parseCSV_quiet env csvText) Hp) as ->;
    [|done].
  rewrite bind_run.
  destruct (validateSchema rs schema w) as [[[]|e] w1] eqn:Hv.
  - by rewrite bind_run, saveLKG_run.
  - by rewrite (validateSchema_throw_world _ _ _ _ _ Hv).
Qed.

(** Either the network path got as far as the digest or it failed before,
    on a fetch or in the host, with the world as it was. *)
Lemma loadNetwork_prefix w :
  (∃ e, loadNetwork env w = (Throw e, w) ∧
        (kind e = FetchError ∨ kind e = HostError))
  ∨ (∃ manifest schema csvText hash expected,
        Fetched env w manifest schema csvText hash expected).
Proof.
  unfold loadNetwork.
  destruct (fetchText env (VStr MANIFEST_URL) VUndef w)
    as [[manifestText|e] w1] eqn:Hmt;
    pose proof (quiet_run _ _ _ _ (fetchText_quiet env _ _) Hmt) as ->.
  2: { left. exists e. rewrite (bind_throw _ _ _ _ _ Hmt).
       eauto using fetchText_throw_kind. }
  rewrite (bind_return _ _ _ _ _ Hmt), bind_run, host_run.
  destruct (JSON_parse manifestText) as [manifest|msg] eqn:Hm;
    [|left; eexists; split; [done|by right]].
  rewrite bind_run, host_run.
  destruct (field manifest "schema_version") as [sv|msg] eqn:Hsv;
    [|left; eexists; split; [done|by right]].
  destruct (fetchText env (VStr SCHEMA_URL) (js_or sv (VStr "")) w)
    as [[schemaText|e] w1] eqn:Hst;
    pose proof (quiet_run _ _ _ _ (fetchText_quiet env _ _) Hst) as ->.
  2: { left. exists e. rewrite (bind_throw _ _ _ _ _ Hst).
       eauto using fetchText_throw_kind. }
  rewrite (bind_return _ _ _ _ _ Hst), bind_run, host_run.
  destruct (JSON_parse schemaText) as [schema|msg] eqn:Hs;
    [|left; eexists; split; [done|by right]].
  rewrite bind_run, host_run.
  destruct (field manifest "url") as [url|msg] eqn:Hurl;
    [|left; eexists; split; [done|by right]].
  rewrite bind_run, host_run.
  destruct (field manifest "version") as [version|msg] eqn:Hver;
    [|left; eexists; split; [done|by right]].
  destruct (fetchText env url version w) as [[csvText|e] w1] eqn:Hcsv;
    pose proof (quiet_run _ _ _ _ (fetchText_quiet env _ _) Hcsv) as ->.
  2: { left. exists e. rewrite (bind_throw _ _ _ _ _ Hcsv).
       eauto using fetchText_throw_kind. }
  rewrite (bind_return _ _ _ _ _ Hcsv).
  destruct (sha256 env csvText w) as [[hash|e] w1] eqn:Hhash;
    pose proof (quiet_run _ _ _ _ (sha256_quiet env _) Hhash) as ->.
  2: { left. exists e. rewrite (bind_throw _ _ _ _ _ Hhash).
       eauto using sha256_throw_kind. }
  rewrite (bind_return _ _ _ _ _ Hhash), bind_run, host_run.
  destruct (field manifest "sha256") as [expected|msg] eqn:Hexp;
    [|left; eexists; split; [done|by right]].
  right. exists manifest, schema, csvText, hash, expected.
  split; eauto 10.
Qed.

End NetworkFacts.

Section LoadFacts.
Context `{Runtime} (env : Env).

(** A network path that fails leaves the whole world as it found it: the
    store is written last, and that write cannot fail. *)
Lemma loadNetwork_throw_world w e w' :
  loadNetwork env w = (Throw e, w') → w' = w.
Proof.
  destruct (loadNetwork_prefix env w)
    as [(e0 & -> & _)|(manifest & schema & csvText & hash & expected & Hf)];
    [by intros [= _ <-]|].
  rewrite (loadNetwork_fetched env _ _ _ _ _ _ Hf).
  destruct (checksum_differs expected hash) as [[]|]; try by intros [= _ <-].
  destruct (parseCSV env csvText w) as [[rs|e1] w0]; [|by intros [= _ <-]].
  destruct (validateSchema rs schema w) as [[[]|e2] w1]; by intros [= ].
Qed.

(** A network path that returns went through every stage. *)
Lemma loadNetwork_return_inv w r w' :
  loadNetwork env w = (Return r, w') →
  ∃ manifest schema csvText hash expected rs w1,
    Fetched env w manifest schema csvText hash expected ∧
    checksum_differs expected hash = Some false ∧
    parseCSV env csvText w = (Return rs, w) ∧
    validateSchema rs schema w = (Return (), w1) ∧
    r = MkLoadResult (rows_value rs) (network_meta manifest) ∧
    w' = with_storage (saved (network_meta manifest) (rows_value rs)
                             (localStorage w1)) w1.
Proof.
  destruct (loadNetwork_prefix env w)
    as [(e0 & -> & _)|(manifest & schema & csvText & hash & expected & Hf)];
    [done|].
  rewrite (loadNetwork_fetched env _ _ _ _ _ _ Hf).
  destruct (checksum_differs expected hash) as [[]|] eqn:Hck; try done.
  destruct (parseCSV env csvText w) as [[rs|e1] w0] eqn:Hp; [|done].
  pose proof (quiet_run _ _ _ _ (parseCSV_quiet env csvText) Hp) as ->.
  destruct (validateSchema rs schema w) as [[[]|e1] w1] eqn:Hv; [|done].
  intros [= <- <-]. exists manifest, schema, csvText, hash, expected, rs, w1.
  done.
Qed.

(** The orchestrator, by cases on the network path. *)
Lemma loadData_run w :
  loadData env w
  = match loadNetwork env w with
    | (Return r, w') => (Return r, w')
    | (Throw e, _) =>
        let w1 := logged [NetworkPathFailed (message e)] w in
        match read_lkg (localStorage w) with
        | Some r => (Return r, w1)
        | None =>
            (Throw (Exn NoDataAvailableError
                        ("No data available (network failed and no LKG). "
                         +:+ message e)), w1)
        end
    end.
Proof.
  unfold loadData, try_catch.
  destruct (loadNetwork env w) as [[r|e] w'] eqn:Hn; [done|].
  apply loadNetwork_throw_world in Hn as ->.
  rewrite bind_run. unfold console_warn at 1. fold (logged [NetworkPathFailed (message e)] w).
  rewrite bind_run, loadLKG_run. simpl.
  by destruct (read_lkg (localStorage w)).
Qed.

(** The outcome of the network path does not depend on the world it
    starts in: neither the console nor the storage, and whatever the
    storage does with the writes at the end. *)
Lemma loadNetwork_blind : blind (loadNetwork env).
Proof.
  unfold loadNetwork.
  apply blind_bind; [apply fetchText_blind|]. intros manifestText.
  apply blind_bind; [apply blind_host|]. intros manifest.
  apply blind_bind; [apply blind_host|]. intros schema_version.
  apply blind_bind; [apply fetchText_blind|]. intros schemaText.
  apply blind_bind; [apply blind_host|]. intros schema.
  apply blind_bind; [apply blind_host|]. intros url.
  apply blind_bind; [apply blind_host|]. intros version.
  apply blind_bind; [apply fetchText_blind|]. intros csvText.
  apply blind_bind; [apply sha256_blind|]. intros hash.
  apply blind_bind; [apply blind_host|]. intros expected.
  destruct (checksum_differs expected hash) as [[]|]; [done| |done].
  apply blind_bind; [apply parseCSV_blind|]. intros rs.
  apply blind_bind; [apply validateSchema_blind|]. intros _.
  apply blind_bind; [|done].
  intros w1 w2. by rewrite !saveLKG_run.
Qed.

End LoadFacts.

(* ===================================================================== *)
(** ** The validator, the store and the orchestrator: further facts *)
(* ===================================================================== *)

Lemma text_or_null_lacks `{Runtime} (st : Storage) (k : string) :
  lacks st k →
  (∃ msg, JSON_parse (text_or_null (items st !! k)) = Abrupt msg)
  ∨ JSON_parse (text_or_null (items st !! k)) = Normal VNull.
Proof.
  intros [->|(s & -> & Hs)]; simpl; [right; apply JSON_parse_null|].
  case_bool_decide; [right; apply JSON_parse_null | done].
Qed.

Lemma strip_symbols_clean (v : value) (c : ascii) :
  c ∈ chars "$%," → c ∉ chars (strip_symbols v).
Proof.
  intros Hc. unfold strip_symbols, remove_chars, chars, of_chars.
  rewrite !String.list_ascii_of_string_of_list_ascii.
  intros [_ [Hnot _]%list_elem_of_filter]%list_elem_of_filter.
  apply Hnot. simpl in *. rewrite !elem_of_cons, elem_of_nil in Hc |- *. tauto.
Qed.

Lemma sample_warning_length `{Runtime} (col : value) (rs : list row) :
  length (sample_warning col rs) ≤ 1.
Proof. unfold sample_warning. destruct (list_find _ rs) as [[i r]|]; simpl; lia. Qed.

Lemma numeric_warnings_take `{Runtime} (num : list value) (rs : list row) :
  numeric_warnings num (take 50 rs) = numeric_warnings num rs.
Proof. unfold numeric_warnings. by rewrite take_take. Qed.

Section OrchestratorFacts.
Context `{Runtime} (env : Env).

Lemma parseCSV_throw_kind text w e w' :
  parseCSV env text w = (Throw e, w') →
  kind e = DecoderUnavailableError ∨ kind e = HostError.
Proof.
  unfold parseCSV. destruct (Papa env) as [parse|].
  - intros [? _]%host_throw_kind. by right.
  - intros [= <- _]. by left.
Qed.

Lemma validateSchema_throw_kind rows schema w e w' :
  validateSchema rows schema w = (Throw e, w') →
  kind e = EmptyDatasetError ∨ kind e = MissingColumnsError ∨ kind e = HostError.
Proof.
  destruct rows as [|row0 rest]; [intros [= <- _]; by left|].
  destruct (validateSchema_cases row0 rest schema w)
    as [(req & _ & _ & ->)|[(req & num & _ & _ & _ & ->)|(msg & -> & _)]];
    intros [= <- _]; auto.
Qed.

Lemma Fetched_manifest w manifest manifest' schema csvText hash expected :
  fetches_manifest env w manifest →
  Fetched env w manifest' schema csvText hash expected →
  manifest' = manifest.
Proof.
  intros (t & Ht & Hm) [(t' & Ht' & Hm') _ _ _ _]. congruence.
Qed.

(** What was fetched does not depend on the world the load starts in. *)
Lemma Fetched_any_world w w2 manifest schema csvText hash expected :
  Fetched env w manifest schema csvText hash expected →
  Fetched env w2 manifest schema csvText hash expected.
Proof.
  intros [(t & Ht & Hm) (sv & st & Hsv & Hst & Hs)
          (url & version & Hurl & Hver & Hcsv) Hhash Hexp].
  split; [exists t|exists sv, st|exists url, version| |done]; split_and?; try done.
  - eapply quiet_blind_run; eauto using fetchText_quiet, fetchText_blind.
  - eapply quiet_blind_run; eauto using fetchText_quiet, fetchText_blind.
  - eapply quiet_blind_run; eauto using fetchText_quiet, fetchText_blind.
  - eapply quiet_blind_run; eauto using sha256_quiet, sha256_blind.
Qed.

Lemma checksum_differs_falsy expected hash :
  truthy expected = false → checksum_differs expected hash = Some false.
Proof. unfold checksum_differs. by intros ->. Qed.

Lemma checksum_differs_truthy expected hash :
  checksum_differs expected hash ≠ Some false → truthy expected = true.
Proof. unfold checksum_differs. by destruct (truthy expected). Qed.

Lemma loadData_throw_inv w e w' :
  loadData env w = (Throw e, w') →
  ∃ cause,
    loadNetwork env w = (Throw cause, w) ∧
    read_lkg (localStorage w) = None ∧
    e = Exn NoDataAvailableError
            ("No data available (network failed and no LKG). " +:+ message cause).
Proof.
  rewrite loadData_run.
  destruct (loadNetwork env w) as [[r|cause] w1] eqn:Hn; [done|].
  apply loadNetwork_throw_world in Hn as Hw. subst w1. simpl.
  destruct (read_lkg (localStorage w)); [done|].
  intros [= <- _]. eauto.
Qed.

Lemma saved_items meta rows st st1 st2 :
  store_put LKG_KEY (JSON_stringify rows) st = Some st1 →
  store_put LKG_META_KEY (JSON_stringify meta) st1 = Some st2 →
  saved meta rows st = st2
  ∧ items st2 !! LKG_KEY = Some (JSON_stringify rows)
  ∧ items st2 !! LKG_META_KEY = Some (JSON_stringify meta).
Proof.
  unfold saved. intros H1 H2. rewrite H1, H2. split; [done|].
  unfold store_put in *.
  destruct (enabled st && _); [|done]. injection H1 as <-.
  destruct (enabled _ && _); [|done]. injection H2 as <-. simpl.
  rewrite lookup_insert_ne by done. by rewrite !lookup_insert_eq.
Qed.

(** The two keys after [saveLKG]: each holds the new text or what it held
    before. *)
Lemma saved_lookup meta rows st :
  (items (saved meta rows st) !! LKG_KEY = Some (JSON_stringify rows)
   ∨ items (saved meta rows st) !! LKG_KEY = items st !! LKG_KEY)
  ∧ (items (saved meta rows st) !! LKG_META_KEY = Some (JSON_stringify meta)
     ∨ items (saved meta rows st) !! LKG_META_KEY = items st !! LKG_META_KEY).
Proof.
  unfold saved, store_put.
  destruct (enabled st && _); [|by split; right]. simpl.
  destruct (bool_decide _); simpl.
  - rewrite lookup_insert_ne by done. rewrite !lookup_insert_eq. by split; left.
  - rewrite lookup_insert_eq, lookup_insert_ne by done. by split; [left|right].
Qed.

End OrchestratorFacts.

(* ===================================================================== *)
(** ** The claims *)
(* ===================================================================== *)

(** C1, as the code has it. When the network path fails, whatever the
    cause, and the store holds an entry, [loadData] returns that entry:
    rows and meta exactly as deserialised from the two keys, nothing
    re-validated and nothing rewritten, the store left as it was. The
    [source] of the returned meta is the stored one; for a meta text
    written by [saveLKG] it reads "network". *)
Theorem fallback_returns_stored_entry `{Runtime}
    (env : Env) (w w1 : World) (cause : exn) (entry : LoadResult) :
  loadNetwork env w = (Throw cause, w1) →
  loadLKG w = (Return (Some entry), w) →
  (∃ w', loadData env w = (Return entry, w')
         ∧ localStorage w' = localStorage w)
  ∧ JSON_parse (text_or_null (items (localStorage w) !! LKG_KEY))
    = Normal (rows entry)
  ∧ JSON_parse (text_or_null (items (localStorage w) !! LKG_META_KEY))
    = Normal (meta entry)
  ∧ (∀ manifest,
       items (localStorage w) !! LKG_META_KEY
         = Some (JSON_stringify (network_meta manifest)) →
       JSON_parse (JSON_stringify (network_meta manifest))
         = Normal (network_meta manifest) →
       field (meta entry) "source" = Normal (VStr "network")).
Proof.
  intros Hnet Hlkg. rewrite loadLKG_run in Hlkg.
  assert (read_lkg (localStorage w) = Some entry) as Hread by congruence.
  clear Hlkg. split_and!.
  - eexists. rewrite loadData_run, Hnet. simpl. rewrite Hread. done.
  - unfold read_lkg in Hread. repeat case_match; by simplify_eq.
  - unfold read_lkg in Hread. repeat case_match; by simplify_eq.
  - intros manifest Hitem Hround. unfold read_lkg in Hread.
    rewrite Hitem in Hread. simpl in Hread.
    case_bool_decide as Hempty.
    + rewrite JSON_parse_null in Hread.
      repeat case_match; simplify_eq. by rewrite andb_false_r in *.
    + rewrite Hround in Hread. repeat case_match; by simplify_eq.
Qed.

(** C2. When the network path fails and the store yields no entry,
    [loadData] fails with NoDataAvailableError, its message ending in the
    message of the network failure; and whenever [loadData] fails, in any
    surroundings, it fails with that error and no other. *)
Theorem no_data_error_embeds_cause `{Runtime}
    (env : Env) (w w1 : World) (cause : exn) :
  loadNetwork env w = (Throw cause, w1) →
  loadLKG w = (Return None, w) →
  (∃ w', loadData env w
         = (Throw (Exn NoDataAvailableError
                       ("No data available (network failed and no LKG). "
                        +:+ message cause)), w'))
  ∧ (∀ env0 w0 e w',
       loadData env0 w0 = (Throw e, w') →
       kind e = NoDataAvailableError
       ∧ ∃ cause0, loadNetwork env0 w0 = (Throw cause0, w0)
                   ∧ message e
                     = "No data available (network failed and no LKG). "
                       +:+ message cause0).
Proof.
  intros Hnet Hlkg. rewrite loadLKG_run in Hlkg. split.
  - eexists. rewrite loadData_run, Hnet. simpl.
    by replace (read_lkg (localStorage w)) with (@None LoadResult) by congruence.
  - intros env0 w0 e w' (cause0 & Hn & _ & ->)%loadData_throw_inv. eauto.
Qed.

(** C3. When the digest of the fetched payload differs, letter case
    aside, from a non-empty [manifest.sha256], the network path fails with
    ChecksumMismatchError, the message carrying the expected and the
    computed digest, and the attempt leaves the store as it was. *)
Theorem checksum_mismatch_keeps_store `{Runtime}
    (env : Env) (w : World) (manifest schema : value)
    (csvText hash expected : string) :
  Fetched env w manifest schema csvText hash (VStr expected) →
  expected ≠ "" →
  toLowerCase expected ≠ toLowerCase hash →
  loadNetwork env w
    = (Throw (Exn ChecksumMismatchError
                  ("Checksum mismatch. Expected " +:+ expected
                   +:+ " got " +:+ hash)), w)
  ∧ (∀ o w', loadData env w = (o, w') → localStorage w' = localStorage w).
Proof.
  intros Hf Hne Hdiff.
  assert (loadNetwork env w
          = (Throw (Exn ChecksumMismatchError
                        ("Checksum mismatch. Expected " +:+ expected
                         +:+ " got " +:+ hash)), w)) as Hnet.
  { rewrite (loadNetwork_fetched env _ _ _ _ _ _ Hf).
    unfold checksum_differs. simpl.
    by rewrite !bool_decide_false by done. }
  split; [done|]. intros o w'. rewrite loadData_run, Hnet. simpl.
  destruct (read_lkg (localStorage w)); by intros [= _ <-].
Qed.

(** C4. When manifest, schema and payload are fetched, the payload's
    digest equals [manifest.sha256] letter case aside, the decoder returns
    rows and these pass the validation, [loadData] returns exactly the
    decoded rows, with [meta.source] "network" and [meta.manifest] the
    fetched manifest. *)
Theorem valid_network_load `{Runtime}
    (env : Env) (w w1 : World) (manifest schema : value)
    (csvText hash expected : string) (rs : list row) :
  Fetched env w manifest schema csvText hash (VStr expected) →
  toLowerCase expected = toLowerCase hash →
  parseCSV env csvText w = (Return rs, w) →
  validateSchema rs schema w = (Return (), w1) →
  ∃ r w',
    loadData env w = (Return r, w')
    ∧ rows r = rows_value rs
    ∧ field (meta r) "source" = Normal (VStr "network")
    ∧ field (meta r) "manifest" = Normal manifest.
Proof.
  intros Hf Heq Hp Hv.
  eexists (MkLoadResult (rows_value rs) (network_meta manifest)), _.
  split; [|done].
  rewrite loadData_run, (loadNetwork_fetched env _ _ _ _ _ _ Hf).
  unfold checksum_differs. simpl. rewrite (bool_decide_true _ Heq).
  case_bool_decide; simpl; by rewrite Hp, Hv.
Qed.

(** C5, as the code has it. In every load attempt the store is written
    only by a network load whose rows passed the validation, and by
    [saveLKG] alone; so whatever the store holds under its two keys stays
    the work of validated network loads. A successful network load whose
    two writes the storage accepts leaves its own rows and meta there,
    whatever was stored before. *)
Theorem store_written_only_after_validation `{Runtime}
    (env : Env) (w w' : World) (o : outcome LoadResult) :
  loadData env w = (o, w') →
  (localStorage w' ≠ localStorage w →
     ∃ r, o = Return r ∧ validated_load env w r
          ∧ localStorage w' = saved (meta r) (rows r) (localStorage w))
  ∧ (store_validated (localStorage w) → store_validated (localStorage w'))
  ∧ (∀ r w0 st1 st2,
       loadNetwork env w = (Return r, w0) →
       store_put LKG_KEY (JSON_stringify (rows r)) (localStorage w) = Some st1 →
       store_put LKG_META_KEY (JSON_stringify (meta r)) st1 = Some st2 →
       o = Return r
       ∧ items (localStorage w') !! LKG_KEY = Some (JSON_stringify (rows r))
       ∧ items (localStorage w') !! LKG_META_KEY = Some (JSON_stringify (meta r))).
Proof.
  rewrite loadData_run.
  destruct (loadNetwork env w) as [[r|cause] w0] eqn:Hnet.
  - intros [= <- <-].
    destruct (loadNetwork_return_inv env _ _ _ Hnet)
      as (manifest & schema & csvText & hash & expected & rs & w1
          & Hf & Hck & Hp & Hv & -> & ->).
    destruct (validateSchema_return_world _ _ _ _ Hv) as [entries ->].
    assert (validated_load env w
              (MkLoadResult (rows_value rs) (network_meta manifest))) as Hval.
    { exists manifest, schema, csvText, hash, expected, rs, (logged entries w).
      done. }
    simpl. split_and!.
    + intros _. eauto.
    + intros [Hrows Hmeta].
      destruct (saved_lookup (network_meta manifest) (rows_value rs)
                             (localStorage w)) as [Hr Hm].
      split; intros s Hs.
      * destruct Hr as [Hr|Hr]; rewrite Hr in Hs; [|by apply Hrows].
        injection Hs as <-. by exists env, w, (MkLoadResult (rows_value rs) (network_meta manifest)).
      * destruct Hm as [Hm|Hm]; rewrite Hm in Hs; [|by apply Hmeta].
        injection Hs as <-. by exists env, w, (MkLoadResult (rows_value rs) (network_meta manifest)).
    + intros r w2 st1 st2 [= <- _] H1 H2. simpl in *.
      destruct (saved_items _ _ _ _ _ H1 H2) as (-> & ? & ?). done.
  - apply loadNetwork_throw_world in Hnet as Hw. subst w0. simpl.
    assert (localStorage w' = localStorage w → 
            (localStorage w' ≠ localStorage w →
               ∃ r, o = Return r ∧ validated_load env w r
                    ∧ localStorage w' = saved (meta r) (rows r) (localStorage w))
            ∧ (store_validated (localStorage w) → store_validated (localStorage w'))) as Hsame.
    { intros ->. done. }
    destruct (read_lkg (localStorage w)); intros [= <- <-];
      (split_and!; [apply Hsame; done..|done]).
Qed.

(** C6. On a non-empty row sequence, validate fails with
    MissingColumnsError exactly when some entry of
    [schema.required_columns] is not a key of the first row; the message
    lists every such entry, in schema order; and the rows after the first
    play no part in it. *)
Theorem validate_missing_columns `{Runtime}
    (row0 : row) (rest : list row) (schema : value) (w : World) :
  ((∃ e w', validateSchema (row0 :: rest) schema w = (Throw e, w')
            ∧ kind e = MissingColumnsError)
   ↔ ∃ req c, required_of schema = Some req ∧ c ∈ req
              ∧ includes (keys row0) c = false)
  ∧ (∀ e w', validateSchema (row0 :: rest) schema w = (Throw e, w') →
             kind e = MissingColumnsError →
             ∃ req, required_of schema = Some req
                    ∧ message e = "missing columns: "
                                  +:+ array_join ", " (missing_in row0 req)
                    ∧ ∀ c, c ∈ missing_in row0 req
                           ↔ c ∈ req ∧ includes (keys row0) c = false)
  ∧ (∀ rest' e w', validateSchema (row0 :: rest) schema w = (Throw e, w') →
                   kind e = MissingColumnsError →
                   validateSchema (row0 :: rest') schema w = (Throw e, w')).
Proof.
  assert (∀ tl e w',
    validateSchema (row0 :: tl) schema w = (Throw e, w') →
    kind e = MissingColumnsError →
    ∃ req, required_of schema = Some req ∧ missing_in row0 req ≠ []
           ∧ w' = w
           ∧ e = Exn MissingColumnsError
                     ("missing columns: " +:+ array_join ", " (missing_in row0 req)))
    as Hinv.
  { intros tl e w' Hv Hk.
    destruct (validateSchema_cases row0 tl schema w)
      as [(req & Hreq & Hm & Hrun)|[(req & num & _ & _ & _ & Hrun)|(msg & Hrun & _)]];
      rewrite Hrun in Hv; [|done|].
    - injection Hv as <- <-. eauto.
    - injection Hv as <- <-. done. }
  assert (∀ tl req, required_of schema = Some req → missing_in row0 req ≠ [] →
    validateSchema (row0 :: tl) schema w
    = (Throw (Exn MissingColumnsError
                  ("missing columns: " +:+ array_join ", " (missing_in row0 req))), w))
    as Hthrow.
  { intros tl req Hreq Hm.
    destruct (validateSchema_cases row0 tl schema w)
      as [(req' & Hreq' & _ & Hrun)|[(req' & num & Hreq' & Hm' & _)
          |(msg & _ & [Hnone|(req' & Hreq' & Hm' & _)])]];
      by simplify_eq. }
  split_and!.
  - split.
    + intros (e & w' & Hv & Hk).
      destruct (Hinv _ _ _ Hv Hk) as (req & Hreq & Hm & _).
      destruct (missing_in row0 req) as [|c cs] eqn:Hcs; [done|].
      assert (c ∈ missing_in row0 req) as [??]%elem_of_missing_in
        by (rewrite Hcs; left). eauto.
    + intros (req & c & Hreq & Hc & Hin).
      eexists _, _. split; [apply (Hthrow rest req Hreq)|done].
      intros Hnil. rewrite (proj1 (missing_in_nil_iff _ _) Hnil c Hc) in Hin. done.
  - intros e w' Hv Hk.
    destruct (Hinv _ _ _ Hv Hk) as (req & Hreq & _ & _ & ->).
    exists req. split_and!; [done..|]. intros c. apply elem_of_missing_in.
  - intros rest' e w' Hv Hk.
    destruct (Hinv _ _ _ Hv Hk) as (req & Hreq & Hm & -> & ->).
    by apply Hthrow.
Qed.

(** C7. On a non-empty row sequence whose first row has every required
    column, validate returns whatever the cells of the numeric columns
    hold. Per numeric column it looks at the first 50 rows at most, strips
    [$], [%] and [,] before the coercion, and on the first filled-in cell
    that does not coerce it writes one warning and leaves the column. *)
Theorem validate_numeric_is_advisory `{Runtime}
    (row0 : row) (rest : list row) (schema : value)
    (req num : list value) (w : World) :
  required_of schema = Some req →
  (∀ c, c ∈ req → includes (keys row0) c = true) →
  numeric_of schema = Some num →
  validateSchema (row0 :: rest) schema w
    = (Return (), logged (numeric_warnings num (row0 :: rest)) w)
  ∧ validateSchema (take 50 (row0 :: rest)) schema w
    = validateSchema (row0 :: rest) schema w
  ∧ (∀ col, length (sample_warning col (take 50 (row0 :: rest))) ≤ 1)
  ∧ (∀ v c, c ∈ chars "$%," → c ∉ chars (strip_symbols v)).
Proof.
  intros Hreq Hall Hnum. apply missing_in_nil_iff in Hall.
  split_and!.
  - rewrite (validateSchema_run _ _ _ _ _ _ Hreq Hnum).
    by rewrite decide_True by done.
  - change (take 50 (row0 :: rest)) with (row0 :: take 49 rest).
    rewrite !(validateSchema_run _ _ _ _ _ _ Hreq Hnum).
    rewrite !decide_True by done.
    change (row0 :: take 49 rest) with (take 50 (row0 :: rest)).
    by rewrite numeric_warnings_take.
  - intros col. apply sample_warning_length.
  - apply strip_symbols_clean.
Qed.

(** C8. The store operations never raise. [saveLKG] returns normally
    whatever the storage does with the two writes, so that the outcome of
    a network load is the same with any storage; and [loadLKG] returns
    (changing nothing), with the absent result whenever either key is
    missing, holds text that does not parse, or holds [null]. *)
Theorem lkg_store_never_raises `{Runtime} (w : World) :
  (∀ meta rows,
     saveLKG meta rows w
     = (Return (), with_storage (saved meta rows (localStorage w)) w))
  ∧ (∀ env st, (loadNetwork env (with_storage st w)).1 = (loadNetwork env w).1)
  ∧ (∃ found, loadLKG w = (Return found, w))
  ∧ (∀ k, k ∈ [LKG_KEY; LKG_META_KEY] → lacks (localStorage w) k →
          loadLKG w = (Return None, w)).
Proof.
  split_and!.
  - intros meta rows. apply saveLKG_run.
  - intros env st. apply loadNetwork_blind.
  - eexists. apply loadLKG_run.
  - intros k Hk Hlacks. rewrite loadLKG_run. f_equal. f_equal.
    apply text_or_null_lacks in Hlacks. unfold read_lkg.
    destruct (enabled (localStorage w)); [|done].
    apply list_elem_of_In in Hk. simpl in Hk.
    destruct Hk as [<-|[<-|[]]].
    + destruct Hlacks as [[msg ->]| ->]; [done|]. by destruct (JSON_parse _).
    + destruct (JSON_parse (text_or_null (items (localStorage w) !! LKG_KEY)))
        as [rows|]; [|done].
      destruct Hlacks as [[msg ->]| ->]; [done|].
      by destruct (truthy rows).
Qed.

(** C9. When [manifest.sha256] is absent, [null] or the empty string, no
    digest is compared: whatever the payload and its digest, the network
    path of that load cannot fail with ChecksumMismatchError. A comparison
    that does fail had a truthy [manifest.sha256]. *)
Theorem absent_checksum_is_not_verified `{Runtime}
    (env : Env) (w : World) (manifest expected : value) :
  fetches_manifest env w manifest →
  field manifest "sha256" = Normal expected →
  expected ∈ [VUndef; VNull; VStr ""] →
  (∀ hash, checksum_differs expected hash = Some false)
  ∧ (∀ e w', loadNetwork env w = (Throw e, w') →
             kind e ≠ ChecksumMismatchError)
  ∧ (∀ v hash, checksum_differs v hash = Some true → truthy v = true).
Proof.
  intros Hm Hexp Hin.
  assert (truthy expected = false) as Hfalsy.
  { rewrite !elem_of_cons, elem_of_nil in Hin.
    by destruct Hin as [->|[->|[->|[]]]]. }
  split_and!.
  - intros hash. by apply checksum_differs_falsy.
  - intros e w'.
    destruct (loadNetwork_prefix env w)
      as [(e0 & -> & Hk)|(manifest' & schema & csvText & hash & expected' & Hf)].
    { intros [= <- _]. destruct Hk as [-> | ->]; done. }
    pose proof (Fetched_manifest env _ _ _ _ _ _ _ Hm Hf) as ->.
    assert (expected' = expected) as ->
      by (destruct Hf as [_ _ _ _ Hexp']; congruence).
    rewrite (loadNetwork_fetched env _ _ _ _ _ _ Hf).
    rewrite checksum_differs_falsy by done.
    destruct (parseCSV env csvText w) as [[rs|e1] w0] eqn:Hp.
    2: { intros [= <- _].
         destruct (parseCSV_throw_kind env _ _ _ _ Hp) as [-> | ->]; done. }
    destruct (validateSchema rs schema w) as [[[]|e1] w2] eqn:Hv; [done|].
    intros [= <- _].
    destruct (validateSchema_throw_kind _ _ _ _ _ Hv) as [->|[->| ->]]; done.
  - intros v hash Hd. apply (checksum_differs_truthy v hash). congruence.
Qed.

(** C10. For every non-empty row sequence, validate succeeds on a schema
    object that has neither a [required_columns] nor a [numeric_columns]
    field: each absent field counts as the empty list, so no column is
    required and nothing is sampled (the console stays as it was). *)
Theorem validate_schema_without_fields `{Runtime}
    (rows : list row) (props : list (string * value)) (w : World) :
  rows ≠ [] →
  assoc "required_columns" props = None →
  assoc "numeric_columns" props = None →
  required_of (VObj props) = Some []
  ∧ numeric_of (VObj props) = Some []
  ∧ validateSchema rows (VObj props) w = (Return (), w).
Proof.
  intros Hrows Hreq Hnum.
  assert (required_of (VObj props) = Some []) as Hr.
  { unfold required_of, field, obj_get. by rewrite Hreq. }
  assert (numeric_of (VObj props) = Some []) as Hn.
  { unfold numeric_of, field, obj_get. by rewrite Hnum. }
  destruct rows as [|row0 rest]; [done|].
  rewrite (validateSchema_run _ _ _ _ _ _ Hr Hn).
  split_and!; [done..|]. simpl. by rewrite logged_nil.
Qed.

(* ===================================================================== *)
(** ** The claims on concrete sites *)
(* ===================================================================== *)

Section Examples.
Import Reference Sites.
Existing Instance browser.

(** The fetch stages of a concrete site, run one by one. *)
Ltac run_fetches :=
  split;
  [ eexists; split; [unfold fetchText; by rewrite bind_run, host_run | by vm_compute]
  | eexists _, _; split_and!;
      [done | unfold fetchText; by rewrite bind_run, host_run | by vm_compute]
  | eexists _, _; split_and!;
      [done | done | unfold fetchText; by rewrite bind_run, host_run]
  | unfold sha256; by rewrite bind_run, host_run
  | done ].

Lemma Fetched_site_ab (w : World) :
  Fetched site_ab w manifest_ab schema_ab csv_ab (digest_of csv_ab)
          (VStr "0C7519A734CD41AC2c8fcc599c713091d0dddb2ccd90ecad7f30e4d9575aed40").
Proof. run_fetches. Qed.

Lemma Fetched_site_tampered (w : World) :
  Fetched site_tampered w manifest_ab schema_ab csv_grown (digest_of csv_grown)
          (VStr "0C7519A734CD41AC2c8fcc599c713091d0dddb2ccd90ecad7f30e4d9575aed40").
Proof. run_fetches. Qed.

(** C1 as stated fails where it asks for [meta.source == "cache"]: once
    [site_ab] was loaded and the network is gone, the fallback returns the
    stored entry, whose [source] still reads "network". *)
Lemma fallback_source_is_not_cache :
  (∃ cause, loadNetwork offline cached_world = (Throw cause, cached_world))
  ∧ (∃ entry, loadLKG cached_world = (Return (Some entry), cached_world))
  ∧ ∃ entry w',
      loadData offline cached_world = (Return entry, w')
      ∧ field (meta entry) "source" = Normal (VStr "network")
      ∧ field (meta entry) "source" ≠ Normal (VStr "cache").
Proof.
  split_and!.
  - eexists. vm_compute. reflexivity.
  - eexists. vm_compute. reflexivity.
  - eexists _, _. split_and!; [vm_compute; reflexivity|done|done].
Qed.

Lemma fallback_returns_stored_entry_witness :
  let cause := Exn HostError "Failed to fetch" in
  let entry := MkLoadResult (rows_value rows_ab) (network_meta manifest_ab) in
  loadNetwork offline cached_world = (Throw cause, cached_world)
  ∧ loadLKG cached_world = (Return (Some entry), cached_world)
  ∧ (∃ w', loadData offline cached_world = (Return entry, w')
           ∧ localStorage w' = localStorage cached_world)
  ∧ field (meta entry) "source" = Normal (VStr "network").
Proof.
  intros cause entry.
  assert (loadNetwork offline cached_world = (Throw cause, cached_world))
    as Hnet by (vm_compute; reflexivity).
  assert (loadLKG cached_world = (Return (Some entry), cached_world))
    as Hlkg by (vm_compute; reflexivity).
  destruct (fallback_returns_stored_entry offline cached_world cached_world
              cause entry Hnet Hlkg) as (Hload & _ & _ & Hsource).
  split_and!; [done..|].
  apply (Hsource manifest_ab); vm_compute; reflexivity.
Defined.

(** No network and nothing stored: the one error a caller can see. *)
Lemma no_data_error_embeds_cause_witness :
  loadNetwork offline (fresh 1000)
    = (Throw (Exn HostError "Failed to fetch"), fresh 1000)
  ∧ loadLKG (fresh 1000) = (Return None, fresh 1000)
  ∧ ∃ w', loadData offline (fresh 1000)
          = (Throw (Exn NoDataAvailableError
                        "No data available (network failed and no LKG). Failed to fetch"),
             w').
Proof.
  assert (loadNetwork offline (fresh 1000)
          = (Throw (Exn HostError "Failed to fetch"), fresh 1000))
    as Hnet by (vm_compute; reflexivity).
  assert (loadLKG (fresh 1000) = (Return None, fresh 1000))
    as Hlkg by (vm_compute; reflexivity).
  split_and!; [done..|].
  apply (no_data_error_embeds_cause offline (fresh 1000) (fresh 1000)
           (Exn HostError "Failed to fetch") Hnet Hlkg).
Defined.

(** A site whose payload was altered after the manifest was written: the
    network path stops at the digest, the store keeps the earlier load. *)
Lemma checksum_mismatch_keeps_store_witness :
  Fetched site_tampered cached_world manifest_ab schema_ab csv_grown
    (digest_of csv_grown)
    (VStr "0C7519A734CD41AC2c8fcc599c713091d0dddb2ccd90ecad7f30e4d9575aed40")
  ∧ toLowerCase "0C7519A734CD41AC2c8fcc599c713091d0dddb2ccd90ecad7f30e4d9575aed40"
    ≠ toLowerCase (digest_of csv_grown)
  ∧ loadNetwork site_tampered cached_world
    = (Throw (Exn ChecksumMismatchError
                  ("Checksum mismatch. Expected "
                   +:+ "0C7519A734CD41AC2c8fcc599c713091d0dddb2ccd90ecad7f30e4d9575aed40"
                   +:+ " got " +:+ digest_of csv_grown)), cached_world)
  ∧ (∀ o w', loadData site_tampered cached_world = (o, w') →
             localStorage w' = localStorage cached_world).
Proof.
  assert (toLowerCase "0C7519A734CD41AC2c8fcc599c713091d0dddb2ccd90ecad7f30e4d9575aed40"
          ≠ toLowerCase (digest_of csv_grown)) as Hdiff by (vm_compute; discriminate).
  split_and!; [apply Fetched_site_tampered | done | | ];
    apply (checksum_mismatch_keeps_store site_tampered cached_world manifest_ab
             schema_ab csv_grown (digest_of csv_grown) _
             (Fetched_site_tampered _)); done.
Defined.

(** The example of the specification, section 8: the payload's digest
    matches the manifest, the two rows come back from the network. *)
Lemma valid_network_load_witness :
  Fetched site_ab (fresh 1000) manifest_ab schema_ab csv_ab (digest_of csv_ab)
    (VStr "0C7519A734CD41AC2c8fcc599c713091d0dddb2ccd90ecad7f30e4d9575aed40")
  ∧ toLowerCase "0C7519A734CD41AC2c8fcc599c713091d0dddb2ccd90ecad7f30e4d9575aed40"
    = toLowerCase (digest_of csv_ab)
  ∧ parseCSV site_ab csv_ab (fresh 1000) = (Return rows_ab, fresh 1000)
  ∧ validateSchema rows_ab schema_ab (fresh 1000) = (Return (), fresh 1000)
  ∧ ∃ r w',
      loadData site_ab (fresh 1000) = (Return r, w')
      ∧ rows r = rows_value rows_ab
      ∧ field (meta r) "source" = Normal (VStr "network")
      ∧ field (meta r) "manifest" = Normal manifest_ab.
Proof.
  assert (toLowerCase "0C7519A734CD41AC2c8fcc599c713091d0dddb2ccd90ecad7f30e4d9575aed40"
          = toLowerCase (digest_of csv_ab)) as Hdigest by (vm_compute; reflexivity).
  assert (parseCSV site_ab csv_ab (fresh 1000) = (Return rows_ab, fresh 1000))
    as Hrows by (vm_compute; reflexivity).
  assert (validateSchema rows_ab schema_ab (fresh 1000) = (Return (), fresh 1000))
    as Hvalid by (vm_compute; reflexivity).
  split_and!; [apply Fetched_site_ab | done..|].
  exact (valid_network_load site_ab (fresh 1000) (fresh 1000) manifest_ab
           schema_ab csv_ab (digest_of csv_ab) _ rows_ab
           (Fetched_site_ab _) Hdigest Hrows Hvalid).
Defined.

(** C5 as stated fails where it says a successful network load always
    overwrites the store: with the storage nearly full, the grown payload
    loads from the network while both writes are refused, and the store
    still holds the rows of the earlier load. *)
Lemma successful_load_can_leave_store :
  (∃ r1, loadData site_ab (fresh 210) = (Return r1, tight_world)
         ∧ rows r1 = rows_value rows_ab)
  ∧ ∃ r2 w2,
      loadNetwork site_grown tight_world = (Return r2, w2)
      ∧ loadData site_grown tight_world = (Return r2, w2)
      ∧ rows r2 = rows_value rows_grown
      ∧ localStorage w2 = localStorage tight_world
      ∧ items (localStorage w2) !! LKG_KEY = Some (stringify (rows_value rows_ab))
      ∧ items (localStorage w2) !! LKG_KEY ≠ Some (stringify (rows r2)).
Proof.
  split.
  - eexists. split; vm_compute; reflexivity.
  - eexists _, _. split_and!; [vm_compute; reflexivity..|].
    vm_compute. discriminate.
Qed.

(** Two loads in a row with room in the storage: the store ends up with
    the rows and meta of the second. *)
Lemma store_written_only_after_validation_witness :
  let second := MkLoadResult (rows_value rows_grown) (network_meta manifest_grown) in
  ∃ w2,
    loadData site_grown cached_world = (Return second, w2)
    ∧ store_validated (localStorage w2)
    ∧ items (localStorage w2) !! LKG_KEY = Some (stringify (rows second))
    ∧ items (localStorage w2) !! LKG_META_KEY = Some (stringify (meta second)).
Proof.
  intros second.
  assert (loadData site_ab (fresh 1000)
          = (Return (MkLoadResult (rows_value rows_ab) (network_meta manifest_ab)),
             cached_world)) as Hfirst by (vm_compute; reflexivity).
  destruct (loadData site_grown cached_world) as [o w2] eqn:Hsecond.
  assert (o = Return second) as ->
    by (vm_compute in Hsecond; injection Hsecond as <- _; reflexivity).
  destruct (store_written_only_after_validation site_ab (fresh 1000)
              cached_world _ Hfirst) as (_ & Hinv1 & _).
  destruct (store_written_only_after_validation site_grown cached_world
              w2 _ Hsecond) as (_ & Hinv2 & Hwrite).
  exists w2. split; [done|]. split.
  - apply Hinv2, Hinv1. split; intros s Hs; vm_compute in Hs; discriminate.
  - eapply Hwrite; vm_compute; reflexivity.
Defined.

(** The two writes of [saveLKG] are separate: here the storage takes the
    new rows and refuses the longer meta, and the store is left with the
    rows of one load beside the meta of another. *)
Lemma saveLKG_partial_write :
  ∃ r w',
    loadData site_ab grown_world = (Return r, w')
    ∧ rows r = rows_value rows_ab
    ∧ loadLKG w'
      = (Return (Some (MkLoadResult (rows_value rows_ab)
                                    (network_meta manifest_grown))), w').
Proof.
  eexists _, _. split_and!.
  - vm_compute. reflexivity.
  - reflexivity.
  - vm_compute. reflexivity.
Qed.

(** A first row without the required [b] and [c]: both are listed, and
    the later rows, which have them, do not help. *)
Lemma validate_missing_columns_witness :
  let schema := VObj [("required_columns", VArr [VStr "a"; VStr "b"; VStr "c"])] in
  let later := [("a", VStr "1"); ("b", VStr "2"); ("c", VStr "3")] in
  validateSchema [[("a", VStr "1")]; later] schema (fresh 0)
  = (Throw (Exn MissingColumnsError "missing columns: b, c"), fresh 0).
Proof.
  intros schema later.
  assert (validateSchema [[("a", VStr "1")]] schema (fresh 0)
          = (Throw (Exn MissingColumnsError "missing columns: b, c"), fresh 0))
    as Hfirst by (vm_compute; reflexivity).
  apply (proj2 (proj2 (validate_missing_columns [("a", VStr "1")] []
                         schema (fresh 0))) [later] _ _ Hfirst eq_refl).
Defined.

(** The grown payload has "n/a" and "95%" in the numeric column [b]: one
    warning, for "n/a", and the validation returns. *)
Lemma validate_numeric_is_advisory_witness :
  required_of schema_ab = Some [VStr "a"; VStr "b"]
  ∧ (∀ c, c ∈ [VStr "a"; VStr "b"] →
          includes ["a"; "b"] c = true)
  ∧ numeric_of schema_ab = Some [VStr "b"]
  ∧ validateSchema rows_grown schema_ab (fresh 0)
    = (Return (), logged [NonNumericSample (VStr "b") (VStr "n/a")] (fresh 0)).
Proof.
  assert (∀ c, c ∈ [VStr "a"; VStr "b"] → includes ["a"; "b"] c = true) as Hall.
  { intros c Hc. rewrite !elem_of_cons, elem_of_nil in Hc.
    by destruct Hc as [->|[->|[]]]. }
  split_and!; [done..|].
  exact (proj1 (validate_numeric_is_advisory
                  [("a", VStr "1"); ("b", VStr "2")]
                  (tail rows_grown) schema_ab [VStr "a"; VStr "b"] [VStr "b"]
                  (fresh 0) eq_refl Hall eq_refl)).
Defined.

(** Storage switched off: saving returns, loading finds nothing. *)
Lemma lkg_store_never_raises_witness :
  let w := MkWorld (MkStorage false 0 ∅) [] None None in
  saveLKG (network_meta manifest_ab) (rows_value rows_ab) w = (Return (), w)
  ∧ loadLKG w = (Return None, w).
Proof.
  intros w.
  destruct (lkg_store_never_raises w) as (Hsave & _ & _ & Hload). split.
  - rewrite Hsave. vm_compute. reflexivity.
  - apply (Hload LKG_KEY); [left|]. left. vm_compute. reflexivity.
Defined.

(** A manifest without [sha256]: nothing is compared. *)
Lemma absent_checksum_is_not_verified_witness :
  fetches_manifest site_grown (fresh 1000) manifest_grown
  ∧ field manifest_grown "sha256" = Normal VUndef
  ∧ VUndef ∈ [VUndef; VNull; VStr ""]
  ∧ (∀ e w', loadNetwork site_grown (fresh 1000) = (Throw e, w') →
             kind e ≠ ChecksumMismatchError).
Proof.
  assert (fetches_manifest site_grown (fresh 1000) manifest_grown) as Hm.
  { exists (stringify manifest_grown). split; [|by vm_compute].
    unfold fetchText. by rewrite bind_run, host_run. }
  assert (VUndef ∈ [VUndef; VNull; VStr ""]) as Hin by left.
  split_and!; [done..|].
  apply (absent_checksum_is_not_verified site_grown (fresh 1000) manifest_grown
           VUndef Hm eq_refl Hin).
Defined.

(** A schema that declares nothing accepts any non-empty dataset. *)
Lemma validate_schema_without_fields_witness :
  rows_ab ≠ []
  ∧ assoc "required_columns" [("title", VStr "prices")] = None
  ∧ assoc "numeric_columns" [("title", VStr "prices")] = None
  ∧ validateSchema rows_ab (VObj [("title", VStr "prices")]) (fresh 0)
    = (Return (), fresh 0).
Proof.
  assert (rows_ab ≠ []) as Hrows by done.
  split_and!; [done..|].
  apply (validate_schema_without_fields rows_ab [("title", VStr "prices")]
           (fresh 0) Hrows eq_refl eq_refl).
Defined.

End Examples.

(* ===================================================================== *)
(** ** Further properties of the loader *)
(* ===================================================================== *)

Lemma chars_of_chars cs : chars (of_chars cs) = cs.
Proof. apply String.list_ascii_of_string_of_list_ascii. Qed.

Lemma of_chars_chars s : of_chars (chars s) = s.
Proof. apply String.string_of_list_ascii_of_string. Qed.

Lemma chars_app s t : chars (s +:+ t) = chars s ++ chars t.
Proof. induction s as [|c s IH]; simpl; [done|]. by rewrite IH. Qed.

Lemma chars_join_empty (xs : list string) : chars (join "" xs) = xs ≫= chars.
Proof.
  induction xs as [|x [|y xs] IH]; [done| |].
  - simpl. by rewrite app_nil_r.
  - change (join "" (x :: y :: xs)) with (x +:+ "" +:+ join "" (y :: xs)).
    by rewrite !chars_app, IH.
Qed.

(** A property of bytes that holds for the 256 of them, checked by running
    it. *)
Lemma forall_byte (P : byte → bool) :
  forallb (λ n, match Byte.of_N (N.of_nat n) with
                | Some b => P b
                | None => true
                end) (seq 0 256) = true →
  ∀ b, P b = true.
Proof.
  intros Hall b. rewrite forallb_forall in Hall.
  specialize (Hall (N.to_nat (Byte.to_N b))).
  rewrite N2Nat.id, Byte.of_to_N in Hall. apply Hall, in_seq.
  pose proof (Byte.to_N_bounded b). lia.
Qed.

Lemma forall_ascii (P : ascii → bool) :
  forallb (λ n, P (Ascii.ascii_of_nat n)) (seq 0 256) = true →
  ∀ c, P c = true.
Proof.
  intros Hall c. rewrite forallb_forall in Hall.
  specialize (Hall (Ascii.nat_of_ascii c)).
  rewrite Ascii.ascii_nat_embedding in Hall. apply Hall, in_seq.
  pose proof (Ascii.nat_ascii_bounded c). lia.
Qed.

(** The two digits [b.toString(16).padStart(2,'0')] gives for a byte: they
    are lower-case hexadecimal digits and read back as the byte. *)
Lemma hex_pair (b : byte) :
  ∃ hi lo,
    chars (padStart 2 "0" (toString16 b)) = [hi; lo]
    ∧ hi ∈ chars "0123456789abcdef" ∧ lo ∈ chars "0123456789abcdef"
    ∧ lower_char hi = hi ∧ lower_char lo = lo
    ∧ ∀ rest, unhex (hi :: lo :: rest)
              = match unhex rest with Some bs => Some (b :: bs) | None => None end.
Proof.
  pose (P := λ b : byte,
    match chars (padStart 2 "0" (toString16 b)) with
    | [hi; lo] =>
        bool_decide (hi ∈ chars "0123456789abcdef")
        && bool_decide (lo ∈ chars "0123456789abcdef")
        && bool_decide (lower_char hi = hi) && bool_decide (lower_char lo = lo)
        && match nibble hi, nibble lo with
           | Some x, Some y =>
               match Byte.of_N (16 * x + y) with
               | Some b' => Byte.eqb b' b
               | None => false
               end
           | _, _ => false
           end
    | _ => false
    end).
  assert (P b = true) as Hb by (apply forall_byte; vm_compute; reflexivity).
  unfold P in Hb.
  destruct (chars (padStart 2 "0" (toString16 b))) as [|hi [|lo [|]]]; try done.
  destruct (nibble hi) as [x|] eqn:Hx, (nibble lo) as [y|] eqn:Hy;
    rewrite ?andb_false_r in Hb; try done.
  apply andb_prop in Hb as [Hb Hback].
  repeat (apply andb_prop in Hb as [Hb ?%bool_decide_eq_true]).
  apply bool_decide_eq_true in Hb.
  destruct (Byte.of_N (16 * x + y)) as [b'|] eqn:Hof; [|done].
  apply Byte.byte_dec_bl in Hback as ->.
  exists hi, lo. split_and!; try done.
  intros rest. simpl. rewrite Hx, Hy, Hof. by destruct (unhex rest).
Qed.

Lemma length_chars s : length (chars s) = String.length s.
Proof. induction s as [|c s IH]; simpl; [done|]. by rewrite IH. Qed.

Lemma toLowerCase_fixed s :
  Forall (λ c, lower_char c = c) (chars s) → toLowerCase s = s.
Proof.
  intros Hs. unfold toLowerCase.
  assert (lower_char <$> chars s = chars s) as ->; [|apply of_chars_chars].
  induction Hs as [|c cs Hc _ IH]; [done|]. by rewrite fmap_cons, Hc, IH.
Qed.

(** What the hexadecimal text of a digest looks like. *)
Lemma hex_text (buf : list byte) :
  let h := join "" ((λ b, padStart 2 "0" (toString16 b)) <$> buf) in
  length (chars h) = 2 * length buf
  ∧ Forall (λ c, c ∈ chars "0123456789abcdef" ∧ lower_char c = c) (chars h)
  ∧ unhex (chars h) = Some buf.
Proof.
  simpl. rewrite chars_join_empty.
  induction buf as [|b buf (IHlen & IHall & IHback)]; [done|].
  destruct (hex_pair b) as (hi & lo & Hpair & Hhi & Hlo & Hlhi & Hllo & Hback).
  cbn [fmap list_fmap mbind list_bind]. rewrite Hpair.
  change (([hi; lo] ++ ?l)) with (hi :: lo :: l).
  split_and!.
  - cbn [length]. rewrite IHlen. lia.
  - apply Forall_cons_2; [split; [exact Hhi|exact Hlhi]|].
    apply Forall_cons_2; [split; [exact Hlo|exact Hllo]|]. exact IHall.
  - by rewrite Hback, IHback.
Qed.

Lemma sha256_lower (env : Env) (text h : string) (w w' : World) :
  sha256 env text w = (Return h, w') → toLowerCase h = h.
Proof.
  unfold sha256. rewrite bind_run, host_run.
  destruct (subtle_digest env text) as [buf|msg]; [|done].
  intros [= <- <-]. destruct (hex_text buf) as (_ & Hall & _).
  apply toLowerCase_fixed. eapply Forall_impl; [exact Hall|]. by intros c [_ ?].
Qed.

(** X1. [sha256] leaves the world alone and returns the digest as text of
    two lower-case hexadecimal digits per digest byte, from which the
    bytes can be read back; lower-casing it changes nothing. *)
Theorem sha256_is_lower_hex (env : Env) (text h : string) (w w' : World) :
  sha256 env text w = (Return h, w') →
  w' = w
  ∧ ∃ buf, subtle_digest env text = Normal buf
           ∧ String.length h = 2 * length buf
           ∧ (∀ c, c ∈ chars h → c ∈ chars "0123456789abcdef")
           ∧ toLowerCase h = h
           ∧ unhex (chars h) = Some buf.
Proof.
  unfold sha256. rewrite bind_run, host_run.
  destruct (subtle_digest env text) as [buf|msg]; [|done].
  intros [= <- <-]. split; [done|]. exists buf.
  destruct (hex_text buf) as (Hlen & Hall & Hback).
  split_and!; [done|by rewrite <- length_chars| |..|done].
  - intros c Hc. rewrite Forall_forall in Hall. by apply Hall.
  - apply toLowerCase_fixed. eapply Forall_impl; [exact Hall|]. by intros c [_ ?].
Qed.

(** X2. A [manifest.sha256] that is truthy but not a string (a number,
    [true], an array, an object) has no [toLowerCase]: once everything is
    fetched the network path ends in a TypeError, not in a checksum error,
    and the world stays as it was. *)
Theorem non_string_checksum_is_type_error `{Runtime}
    (env : Env) (w : World) (manifest schema : value)
    (csvText hash : string) (expected : value) :
  Fetched env w manifest schema csvText hash expected →
  truthy expected = true →
  (∀ s, expected ≠ VStr s) →
  loadNetwork env w
  = (Throw (Exn HostError "manifest.sha256.toLowerCase is not a function"), w).
Proof.
  intros Hf Htruthy Hstr. rewrite (loadNetwork_fetched env _ _ _ _ _ _ Hf).
  unfold checksum_differs. rewrite Htruthy. simpl.
  destruct expected; try done. by destruct (Hstr s).
Qed.

(** X3. The digest comparison ignores the letter case of
    [manifest.sha256] only: the computed digest is lower case already, so
    a non-empty manifest digest passes exactly when its lower-casing is
    the computed digest, and fails with ChecksumMismatchError otherwise. *)
Theorem digest_comparison_ignores_case `{Runtime}
    (env : Env) (w : World) (manifest schema : value)
    (csvText hash expected : string) :
  Fetched env w manifest schema csvText hash (VStr expected) →
  expected ≠ "" →
  (checksum_differs (VStr expected) hash = Some false
   ↔ toLowerCase expected = hash)
  ∧ ((∃ msg, loadNetwork env w = (Throw (Exn ChecksumMismatchError msg), w))
     ↔ toLowerCase expected ≠ hash).
Proof.
  intros Hf Hne.
  assert (toLowerCase hash = hash) as Hlow.
  { destruct Hf as [_ _ _ Hhash _]. by apply sha256_lower in Hhash. }
  assert (checksum_differs (VStr expected) hash
          = Some (negb (bool_decide (toLowerCase expected = hash)))) as Hck.
  { unfold checksum_differs. simpl. rewrite bool_decide_false by done. simpl.
    by rewrite Hlow. }
  split.
  - rewrite Hck. case_bool_decide; simpl; split; congruence.
  - rewrite (loadNetwork_fetched env _ _ _ _ _ _ Hf), Hck.
    case_bool_decide as Heq; simpl.
    + split; [|done]. intros [msg Hrun].
      destruct (parseCSV env csvText w) as [[rs|e] w0] eqn:Hp.
      * destruct (validateSchema rs schema w) as [[[]|e] w1] eqn:Hv; [done|].
        injection Hrun as ->.
        by destruct (validateSchema_throw_kind _ _ _ _ _ Hv) as [?|[?|?]].
      * injection Hrun as ->.
        by destruct (parseCSV_throw_kind env _ _ _ _ Hp) as [?|?].
    + split; [done|]. intros _. eauto.
Qed.

Lemma fetchText_run (env : Env) url version w :
  fetchText env url version w
  = match fetch env (final_url url version) with
    | Normal res =>
        if ok res
        then match text res with
             | Normal body => (Return body, w)
             | Abrupt msg => (Throw (Exn HostError msg), w)
             end
        else (Throw (Exn FetchError ("HTTP " +:+ pretty (status res) +:+ " for "
                                     +:+ final_url url version)), w)
    | Abrupt msg => (Throw (Exn HostError msg), w)
    end.
Proof.
  unfold fetchText. fold (final_url url version). rewrite bind_run, host_run.
  destruct (fetch env (final_url url version)) as [res|msg]; [|done].
  destruct (ok res); simpl; [|done]. rewrite host_run. by destruct (text res).
Qed.

(** X4. [fetchText] hands back a body only for a response whose [ok] flag
    is set: the body of any other response is never returned, the call
    fails with FetchError naming the status and the requested URL. The
    world is left alone either way. *)
Theorem fetchText_returns_only_ok_bodies (env : Env)
    (url version : value) (w : World) :
  (∀ body w',
     fetchText env url version w = (Return body, w')
     ↔ w' = w ∧ ∃ res, fetch env (final_url url version) = Normal res
                       ∧ ok res = true ∧ text res = Normal body)
  ∧ (∀ res,
       fetch env (final_url url version) = Normal res → ok res = false →
       fetchText env url version w
       = (Throw (Exn FetchError ("HTTP " +:+ pretty (status res) +:+ " for "
                                 +:+ final_url url version)), w)).
Proof.
  split.
  - intros body w'. rewrite fetchText_run. split.
    + destruct (fetch env (final_url url version)) as [res|msg]; [|done].
      destruct (ok res) eqn:Hok; [|done].
      destruct (text res) as [body'|msg] eqn:Htext; [|done].
      intros [= <- <-]. eauto.
    + intros (-> & res & -> & -> & ->). done.
  - intros res Hres Hok. by rewrite fetchText_run, Hres, Hok.
Qed.

(** Every character but [%] that [encodeURIComponent] emits is unreserved,
    and what it emits for a character decodes to that character. *)
Lemma uri_char (c : ascii) :
  let piece := if uri_unreserved c then [c]
               else ["%"%char; hex_digit true (code c / 16);
                     hex_digit true (code c mod 16)] in
  Forall (λ x, uri_unreserved x = true ∨ x = "%"%char) piece
  ∧ ∀ rest, uri_decode (piece ++ rest) = c :: uri_decode rest.
Proof.
  pose (P := λ c : ascii,
    if uri_unreserved c then negb (Ascii.eqb c "%")
    else uri_unreserved (hex_digit true (code c / 16))
         && uri_unreserved (hex_digit true (code c mod 16))
         && match Reference.hex_value (hex_digit true (code c / 16)),
                  Reference.hex_value (hex_digit true (code c mod 16)) with
            | Some a, Some b => Ascii.eqb (Ascii.ascii_of_N (16 * a + b)) c
            | _, _ => false
            end).
  assert (P c = true) as Hc by (apply forall_ascii; vm_compute; reflexivity).
  unfold P in Hc. simpl. destruct (uri_unreserved c) eqn:Hun.
  - apply negb_true_iff, Ascii.eqb_neq in Hc. split.
    + apply Forall_cons_2; [by left|constructor].
    + intros rest. simpl. destruct rest as [|hi [|lo rest]]; try done.
      by rewrite decide_False.
  - destruct (Reference.hex_value (hex_digit true (code c / 16))) as [a|] eqn:Ha,
             (Reference.hex_value (hex_digit true (code c mod 16))) as [b|] eqn:Hb;
      rewrite ?andb_false_r in Hc; try done.
    apply andb_prop in Hc as [[H1 H2]%andb_prop Hback].
    apply Ascii.eqb_eq in Hback. split.
    + repeat (apply Forall_cons_2; [auto|]). constructor.
    + intros rest. simpl. by rewrite Ha, Hb, Hback.
Qed.

Lemma uri_text (v : value) :
  Forall (λ x, uri_unreserved x = true ∨ x = "%"%char)
         (chars (encodeURIComponent v))
  ∧ uri_decode (chars (encodeURIComponent v)) = chars (to_string v).
Proof.
  unfold encodeURIComponent. rewrite chars_of_chars.
  induction (chars (to_string v)) as [|c cs [IHall IHback]]; [done|].
  destruct (uri_char c) as [Hall Hback]. cbn [mbind list_bind]. split.
  - by apply Forall_app.
  - by rewrite Hback, IHback.
Qed.

(** X5. The URL [fetchText] requests is [String(url)] alone when the
    version is falsy; otherwise it is [String(url)] followed by [?v=] and
    a token made of unreserved characters and [%] only, so that the
    version can add no second parameter, no fragment and no path. *)
Theorem version_token_is_one_parameter (url version : value) :
  (truthy version = false → final_url url version = to_string url)
  ∧ (truthy version = true →
     ∃ token,
       final_url url version = to_string url +:+ "?v=" +:+ token
       ∧ ∀ c, c ∈ chars token →
              (uri_unreserved c = true ∨ c = "%"%char)
              ∧ c ∉ chars "&=#?/ +").
Proof.
  unfold final_url. split; intros ->; [done|].
  exists (encodeURIComponent version). split; [done|].
  intros c Hc. destruct (uri_text version) as [Hall _].
  rewrite Forall_forall in Hall. specialize (Hall c Hc). split; [done|].
  intros Hbad. simpl in Hbad. rewrite !elem_of_cons, elem_of_nil in Hbad.
  destruct Hall as [Hun| ->];
    [|by repeat destruct Hbad as [Hbad|Hbad]].
  repeat destruct Hbad as [->|Hbad]; try done.
Qed.

(** X6. Versions that print differently are requested at different URLs:
    the encoding of the version token can be undone. *)
Theorem distinct_versions_distinct_urls (url v1 v2 : value) :
  truthy v1 = true → truthy v2 = true →
  final_url url v1 = final_url url v2 →
  to_string v1 = to_string v2.
Proof.
  unfold final_url. intros -> -> Heq.
  apply (f_equal chars) in Heq. rewrite !chars_app in Heq.
  do 2 apply app_inv_head in Heq.
  apply (f_equal uri_decode) in Heq.
  destruct (uri_text v1) as [_ H1], (uri_text v2) as [_ H2].
  rewrite H1, H2 in Heq.
  by rewrite <- (of_chars_chars (to_string v1)), Heq, of_chars_chars.
Qed.

(** X7. Without the decoder script ([window.Papa] unset) no network load
    succeeds, whatever the site serves: the path fails, at the latest with
    DecoderUnavailableError once the fetches and the digest went through,
    and leaves the world as it was. *)
Theorem no_decoder_no_network_load `{Runtime} (env : Env) (w : World) :
  Papa env = None →
  (∃ e, loadNetwork env w = (Throw e, w))
  ∧ (∀ manifest schema csvText hash expected,
       Fetched env w manifest schema csvText hash expected →
       checksum_differs expected hash = Some false →
       loadNetwork env w
       = (Throw (Exn DecoderUnavailableError "PapaParse not loaded"), w)).
Proof.
  intros Hpapa.
  assert (∀ text, parseCSV env text w
                  = (Throw (Exn DecoderUnavailableError "PapaParse not loaded"), w))
    as Hparse by (intros text; unfold parseCSV; by rewrite Hpapa).
  split.
  - destruct (loadNetwork_prefix env w)
      as [(e & He & _)|(manifest & schema & csvText & hash & expected & Hf)];
      [eauto|].
    rewrite (loadNetwork_fetched env _ _ _ _ _ _ Hf), Hparse.
    destruct (checksum_differs expected hash) as [[]|]; eauto.
  - intros manifest schema csvText hash expected Hf Hck.
    by rewrite (loadNetwork_fetched env _ _ _ _ _ _ Hf), Hck, Hparse.
Qed.


(** X9. A payload that decodes to no rows fails the network path with
    EmptyDatasetError before the schema is looked at (the schema may be
    anything, [null] included), and the world stays as it was. *)
Theorem empty_payload_fails_network_path `{Runtime}
    (env : Env) (w : World) (manifest schema : value)
    (csvText hash : string) (expected : value) :
  Fetched env w manifest schema csvText hash expected →
  checksum_differs expected hash = Some false →
  parseCSV env csvText w = (Return [], w) →
  loadNetwork env w = (Throw (Exn EmptyDatasetError "empty dataset"), w).
Proof.
  intros Hf Hck Hp.
  by rewrite (loadNetwork_fetched env _ _ _ _ _ _ Hf), Hck, Hp.
Qed.





Lemma store_put_inv k v st st' :
  store_put k v st = Some st' →
  enabled st = true ∧ enabled st' = true ∧ quota st' = quota st
  ∧ items st' = <[k := v]> (items st) ∧ used (items st') ≤ quota st'.
Proof.
  unfold store_put. destruct (enabled st); [|done]. simpl.
  case_bool_decide; [|done]. by intros [= <-].
Qed.

Lemma store_put_again k v st st' :
  store_put k v st = Some st' → store_put k v st' = Some st'.
Proof.
  intros (_ & Hen & Hq & Hit & Hused)%store_put_inv. unfold store_put.
  rewrite Hen, Hit, insert_insert_eq, <- Hit. simpl.
  rewrite bool_decide_true by done. destruct st'. simpl in *. by subst.
Qed.

(** Writing a value a key already holds, into a store within its quota,
    changes nothing. *)
Lemma store_put_same k v st :
  enabled st = true → used (items st) ≤ quota st → items st !! k = Some v →
  store_put k v st = Some st.
Proof.
  intros Hen Hused Hk. unfold store_put.
  rewrite Hen, (insert_id _ _ _ Hk). simpl.
  rewrite bool_decide_true by done. destruct st. simpl in *. by subst.
Qed.

Lemma saved_idem `{Runtime} meta rows st :
  saved meta rows (saved meta rows st) = saved meta rows st.
Proof.
  unfold saved at 2 3.
  destruct (store_put LKG_KEY (JSON_stringify rows) st) as [st1|] eqn:H1;
    [|by unfold saved; rewrite H1].
  destruct (store_put LKG_META_KEY (JSON_stringify meta) st1) as [st2|] eqn:H2.
  - unfold saved.
    destruct (store_put_inv _ _ _ _ H1) as (_ & _ & _ & Hi1 & _).
    destruct (store_put_inv _ _ _ _ H2) as (_ & Hen2 & _ & Hi2 & Hu2).
    assert (items st2 !! LKG_KEY = Some (JSON_stringify rows)) as Hk.
    { rewrite Hi2, Hi1, lookup_insert_ne by done. apply lookup_insert_eq. }
    rewrite (store_put_same _ _ _ Hen2 Hu2 Hk). cbv beta iota.
    by rewrite (store_put_again _ _ _ _ H2).
  - unfold saved. rewrite (store_put_again _ _ _ _ H1). cbv beta iota.
    by rewrite H2.
Qed.

(** X11. [saveLKG] writes under its two keys and nowhere else: every other
    item, the quota, the console and the snapshots stay as they were. The
    rows go first; when that write is refused nothing is written at all,
    the meta is not tried. *)
Theorem saveLKG_touches_two_keys `{Runtime} (meta rows : value) (w : World) :
  let w' := (saveLKG meta rows w).2 in
  (∀ k, k ≠ LKG_KEY → k ≠ LKG_META_KEY →
        items (localStorage w') !! k = items (localStorage w) !! k)
  ∧ quota (localStorage w') = quota (localStorage w)
  ∧ enabled (localStorage w') = enabled (localStorage w)
  ∧ console w' = console w
  ∧ revoptData w' = revoptData w ∧ revoptDataMeta w' = revoptDataMeta w
  ∧ (store_put LKG_KEY (JSON_stringify rows) (localStorage w) = None → w' = w).
Proof.
  rewrite saveLKG_run. simpl. unfold saved.
  destruct (store_put LKG_KEY _ _) as [st1|] eqn:H1.
  2: { rewrite with_storage_id. by split_and!. }
  destruct (store_put_inv _ _ _ _ H1) as (Hen & Hen1 & Hq1 & Hi1 & Hu1).
  destruct (store_put LKG_META_KEY _ st1) as [st2|] eqn:H2.
  - destruct (store_put_inv _ _ _ _ H2) as (_ & Hen2 & Hq2 & Hi2 & Hu2).
    split_and!; try done; try congruence.
    intros k Hk Hm. by rewrite Hi2, Hi1, !lookup_insert_ne.
  - split_and!; try done; try congruence.
    intros k Hk Hm. by rewrite Hi1, lookup_insert_ne.
Qed.

(** X12. What [saveLKG] stored, [loadLKG] gives back: when the storage
    accepts both writes and [JSON.parse] undoes [JSON.stringify] on the
    two (truthy) values, loading right after saving yields exactly the
    rows and the meta that were saved. *)
Theorem saved_entry_loads_back `{Runtime}
    (meta rows : value) (w : World) (st1 st2 : Storage) :
  store_put LKG_KEY (JSON_stringify rows) (localStorage w) = Some st1 →
  store_put LKG_META_KEY (JSON_stringify meta) st1 = Some st2 →
  JSON_parse (JSON_stringify rows) = Normal rows →
  JSON_parse (JSON_stringify meta) = Normal meta →
  JSON_stringify rows ≠ "" → JSON_stringify meta ≠ "" →
  truthy rows = true → truthy meta = true →
  ∃ w', saveLKG meta rows w = (Return (), w')
        ∧ loadLKG w' = (Return (Some (MkLoadResult rows meta)), w').
Proof.
  intros H1 H2 Hr Hm Hnr Hnm Htr Htm. eexists. split; [apply saveLKG_run|].
  rewrite loadLKG_run. f_equal. f_equal.
  destruct (saved_items _ _ _ _ _ H1 H2) as (-> & Hkr & Hkm).
  destruct (store_put_inv _ _ _ _ H2) as (_ & Hen & _).
  unfold read_lkg. simpl. rewrite Hen, Hkr, Hkm. simpl.
  rewrite !bool_decide_false by done. by rewrite Hr, Hm, Htr, Htm.
Qed.

(** X13. The fallback checks presence, not validity: whatever truthy
    values the two keys parse to are returned as rows and meta when the
    network path fails, with no validation (an array counts as present
    even when it is empty, which the validator would reject). *)
Theorem fallback_is_not_validated `{Runtime}
    (env : Env) (w w1 : World) (cause : exn)
    (rowsText metaText : string) (rows meta : value) :
  loadNetwork env w = (Throw cause, w1) →
  enabled (localStorage w) = true →
  items (localStorage w) !! LKG_KEY = Some rowsText →
  items (localStorage w) !! LKG_META_KEY = Some metaText →
  rowsText ≠ "" → metaText ≠ "" →
  JSON_parse rowsText = Normal rows → JSON_parse metaText = Normal meta →
  truthy rows = true → truthy meta = true →
  (∃ w', loadData env w = (Return (MkLoadResult rows meta), w'))
  ∧ truthy (VArr []) = true
  ∧ (∀ schema w0, ∃ e, validateSchema [] schema w0 = (Throw e, w0)).
Proof.
  intros Hnet Hen Hkr Hkm Hnr Hnm Hr Hm Htr Htm. split_and!; [|done|eauto].
  eexists. rewrite loadData_run, Hnet. simpl. unfold read_lkg.
  rewrite Hen, Hkr, Hkm. simpl. rewrite !bool_decide_false by done.
  by rewrite Hr, Hm, Htr, Htm.
Qed.

(** X14. The network comes first: when the network path returns,
    [loadData] returns that result whatever the store holds (the cache is
    not consulted). [loadData] fails exactly when the network path fails
    and [loadLKG] finds no entry. *)
Theorem network_result_takes_precedence `{Runtime} (env : Env) (w : World) :
  (∀ r w', loadNetwork env w = (Return r, w') →
           loadData env w = (Return r, w')
           ∧ ∀ st, (loadData env (with_storage st w)).1 = Return r)
  ∧ ((∃ e w', loadData env w = (Throw e, w'))
     ↔ (∃ cause, loadNetwork env w = (Throw cause, w))
       ∧ loadLKG w = (Return None, w)).
Proof.
  split.
  - intros r w' Hnet. split; [by rewrite loadData_run, Hnet|].
    intros st. rewrite loadData_run.
    pose proof (loadNetwork_blind env (with_storage st w) w) as Hblind.
    rewrite Hnet in Hblind. simpl in Hblind.
    destruct (loadNetwork env (with_storage st w)) as [o w0].
    simpl in Hblind. by subst o.
  - rewrite loadLKG_run. split.
    + intros (e & w' & (cause & Hnet & Hnone & _)%loadData_throw_inv).
      split; [eauto|by rewrite Hnone].
    + intros [[cause Hnet] [= Hnone]]. rewrite loadData_run, Hnet. simpl.
      rewrite Hnone. eauto.
Qed.


(** X16. Loading the same site again changes nothing in the store: after
    a network load returned, a second one in the same surroundings returns
    the same rows and meta and leaves the storage as the first left it. *)
Theorem reload_keeps_store `{Runtime}
    (env : Env) (w w1 : World) (r : LoadResult) :
  loadNetwork env w = (Return r, w1) →
  ∃ w2, loadData env w1 = (Return r, w2)
        ∧ localStorage w2 = localStorage w1.
Proof.
  intros Hnet.
  destruct (loadNetwork_return_inv env _ _ _ Hnet)
    as (manifest & schema & csvText & hash & expected & rs & w0
        & _ & _ & _ & Hv & -> & ->).
  destruct (validateSchema_return_world _ _ _ _ Hv) as [entries ->].
  set (w1 := with_storage _ _).
  pose proof (loadNetwork_blind env w1 w) as Hblind.
  rewrite Hnet in Hblind. simpl in Hblind.
  destruct (loadNetwork env w1) as [o w2] eqn:Hnet2. simpl in Hblind. subst o.
  exists w2. split; [by rewrite loadData_run, Hnet2|].
  destruct (loadNetwork_return_inv env _ _ _ Hnet2)
    as (manifest' & schema' & csvText' & hash' & expected' & rs' & w0'
        & _ & _ & _ & Hv' & [= Hrs Hmeta] & ->).
  destruct (validateSchema_return_world _ _ _ _ Hv') as [entries' ->].
  simpl. unfold rows_value in Hrs. rewrite <- Hmeta.
  change (VArr (VObj <$> rs')) with (rows_value rs'). unfold rows_value.
  rewrite <- Hrs. apply saved_idem.
Qed.

(** X17. Last known good: after a network load whose two writes the
    storage accepted, a later load whose network path fails returns the
    rows and meta of that earlier load, provided [JSON.parse] undoes
    [JSON.stringify] on them. *)
Theorem last_known_good_is_served `{Runtime}
    (env env' : Env) (w w1 w2 : World) (r : LoadResult) (cause : exn)
    (st1 st2 : Storage) :
  loadNetwork env w = (Return r, w1) →
  store_put LKG_KEY (JSON_stringify (rows r)) (localStorage w) = Some st1 →
  store_put LKG_META_KEY (JSON_stringify (meta r)) st1 = Some st2 →
  JSON_parse (JSON_stringify (rows r)) = Normal (rows r) →
  JSON_parse (JSON_stringify (meta r)) = Normal (meta r) →
  JSON_stringify (rows r) ≠ "" → JSON_stringify (meta r) ≠ "" →
  loadNetwork env' w1 = (Throw cause, w2) →
  ∃ w3, loadData env' w1 = (Return r, w3).
Proof.
  intros Hnet H1 H2 Hr Hm Hnr Hnm Hfail.
  destruct (loadNetwork_return_inv env _ _ _ Hnet)
    as (manifest & schema & csvText & hash & expected & rs & w0
        & _ & _ & _ & Hv & -> & ->).
  destruct (validateSchema_return_world _ _ _ _ Hv) as [entries ->].
  simpl in *.
  destruct (saved_items _ _ _ _ _ H1 H2) as (Hsaved & Hkr & Hkm).
  destruct (store_put_inv _ _ _ _ H2) as (_ & Hen & _).
  eexists. rewrite loadData_run, Hfail. simpl. rewrite Hsaved.
  unfold read_lkg. rewrite Hen, Hkr, Hkm. simpl.
  rewrite !bool_decide_false by done. by rewrite Hr, Hm.
Qed.

Lemma loadData_snapshots `{Runtime} (env : Env) w o w' :
  loadData env w = (o, w') →
  revoptData w' = revoptData w ∧ revoptDataMeta w' = revoptDataMeta w.
Proof.
  rewrite loadData_run.
  destruct (loadNetwork env w) as [[r|cause] w1] eqn:Hnet.
  - destruct (loadNetwork_return_inv env _ _ _ Hnet)
      as (manifest & schema & csvText & hash & expected & rs & w0
          & _ & _ & _ & Hv & -> & ->).
    destruct (validateSchema_return_world _ _ _ _ Hv) as [entries ->].
    by intros [= _ <-].
  - simpl. destruct (read_lkg (localStorage w)); by intros [= _ <-].
Qed.

(** X18. The public promise resolves to the rows of [loadData]'s result
    and only then sets the two snapshots, to those rows and that meta; it
    adds nothing else to the world. When [loadData] fails the promise
    fails with the same NoDataAvailableError and the snapshots stay as
    they were. *)
Theorem promise_sets_snapshots `{Runtime} (env : Env) (w : World) :
  (∀ v w', revoptDataPromise env w = (Return v, w') →
     ∃ m w0, loadData env w = (Return (MkLoadResult v m), w0)
             ∧ revoptData w' = Some v ∧ revoptDataMeta w' = Some m
             ∧ localStorage w' = localStorage w0 ∧ console w' = console w0)
  ∧ (∀ e w', revoptDataPromise env w = (Throw e, w') →
       loadData env w = (Throw e, w')
       ∧ kind e = NoDataAvailableError
       ∧ revoptData w' = revoptData w ∧ revoptDataMeta w' = revoptDataMeta w).
Proof.
  unfold revoptDataPromise. split.
  - intros v w'. rewrite bind_run.
    destruct (loadData env w) as [[[v0 m]|e] w0]; [|done].
    intros [= <- <-]. by exists m, w0.
  - intros e w'. rewrite bind_run.
    destruct (loadData env w) as [[r|e0] w0] eqn:Hload; [done|].
    intros [= <- <-].
    destruct (loadData_snapshots env _ _ _ Hload) as [? ?].
    destruct (loadData_throw_inv env _ _ _ Hload) as (cause & _ & _ & ->).
    done.
Qed.

Lemma fetchText_agree (env env' : Env) url version w :
  fetch env (final_url url version) = fetch env' (final_url url version) →
  fetchText env url version w = fetchText env' url version w.
Proof. intros Heq. by rewrite !fetchText_run, Heq. Qed.

(** X19. The network path reads the network through at most three
    requests: the manifest, always at [data/manifest.json] with no
    version, the schema at its versioned URL and the payload at its
    versioned URL. Surroundings that answer these alike
    (and have the same digest service and decoder) give the same load,
    whatever else they serve. *)
Theorem network_path_reads_three_resources `{Runtime}
    (env env' : Env) (w : World) :
  (∀ url, url ∈ requests env → fetch env url = fetch env' url) →
  subtle_digest env = subtle_digest env' →
  Papa env = Papa env' →
  head (requests env) = Some MANIFEST_URL
  ∧ length (requests env) ≤ 3
  ∧ loadNetwork env w = loadNetwork env' w.
Proof.
  intros Hfetch Hdigest Hpapa. split; [done|]. split.
  { unfold requests. repeat case_match; simpl; lia. }
  assert (∀ text w0, sha256 env text w0 = sha256 env' text w0) as Hsha
    by (intros; unfold sha256; by rewrite Hdigest).
  assert (∀ text w0, parseCSV env text w0 = parseCSV env' text w0) as Hparse
    by (intros; unfold parseCSV; by rewrite Hpapa).
  unfold loadNetwork. unfold requests in Hfetch. cbv zeta in Hfetch.
  set (murl := final_url (VStr MANIFEST_URL) VUndef) in *.
  rewrite !bind_run.
  rewrite <- (fetchText_agree env env') by (apply Hfetch; left).
  rewrite fetchText_run. fold murl.
  destruct (fetch env murl) as [res|msg]; [|done].
  destruct (ok res); [|done].
  destruct (text res) as [manifestText|msg]; [|done].
  rewrite !bind_run, !host_run.
  destruct (JSON_parse manifestText) as [manifest|msg]; [|done].
  rewrite !bind_run, !host_run.
  destruct (field manifest "schema_version") as [sv|msg]; [|done].
  set (surl := final_url (VStr SCHEMA_URL) (js_or sv (VStr ""))) in *.
  rewrite !bind_run.
  rewrite <- (fetchText_agree env env') by (apply Hfetch; right; left).
  rewrite fetchText_run. fold surl.
  destruct (fetch env surl) as [res'|msg]; [|done].
  destruct (ok res'); [|done].
  destruct (text res') as [schemaText|msg]; [|done].
  rewrite !bind_run, !host_run.
  destruct (JSON_parse schemaText) as [schema|msg]; [|done].
  rewrite !bind_run, !host_run.
  destruct (field manifest "url") as [url|msg]; [|done].
  rewrite !bind_run, !host_run.
  destruct (field manifest "version") as [version|msg]; [|done].
  rewrite !bind_run.
  rewrite <- (fetchText_agree env env') by (apply Hfetch; right; right; left).
  destruct (fetchText env url version w) as [[csvText|e] w1]; [|done].
  rewrite !bind_run, <- Hsha.
  destruct (sha256 env csvText w1) as [[hash|e] w2]; [|done].
  rewrite !bind_run, !host_run.
  destruct (field manifest "sha256") as [expected|msg]; [|done].
  destruct (checksum_differs expected hash) as [[]|]; [done| |done].
  rewrite !bind_run, <- Hparse. done.
Qed.


(** X21. The errors of the network path are those of its stages: a fetch
    error, a checksum mismatch, a missing decoder, an empty dataset,
    missing columns, or an error of the browser. NoDataAvailableError is
    never among them: it is raised by [loadData] alone. *)
Theorem network_failure_kinds `{Runtime}
    (env : Env) (w w' : World) (e : exn) :
  loadNetwork env w = (Throw e, w') →
  kind e ∈ [FetchError; HostError; ChecksumMismatchError;
            DecoderUnavailableError; EmptyDatasetError; MissingColumnsError]
  ∧ kind e ≠ NoDataAvailableError.
Proof.
  intros Hnet.
  assert (kind e ∈ [FetchError; HostError; ChecksumMismatchError;
                    DecoderUnavailableError; EmptyDatasetError;
                    MissingColumnsError]) as Hin.
  { destruct (loadNetwork_prefix env w)
      as [(e0 & He0 & Hk)|(manifest & schema & csvText & hash & expected & Hf)].
    { rewrite He0 in Hnet. injection Hnet as <- _.
      rewrite !elem_of_cons. tauto. }
    rewrite (loadNetwork_fetched env _ _ _ _ _ _ Hf) in Hnet.
    destruct (checksum_differs expected hash) as [[]|].
    - injection Hnet as <- _. rewrite !elem_of_cons. tauto.
    - destruct (parseCSV env csvText w) as [[rs|e1] w0] eqn:Hp.
      + destruct (validateSchema rs schema w) as [[[]|e1] w1] eqn:Hv; [done|].
        injection Hnet as <- _.
        destruct (validateSchema_throw_kind _ _ _ _ _ Hv) as [->|[->| ->]];
          rewrite !elem_of_cons; tauto.
      + injection Hnet as <- _.
        destruct (parseCSV_throw_kind env _ _ _ _ Hp) as [->| ->];
          rewrite !elem_of_cons; tauto.
    - injection Hnet as <- _. rewrite !elem_of_cons. tauto. }
  split; [done|]. intros Hk. rewrite Hk in Hin.
  rewrite !elem_of_cons, elem_of_nil in Hin.
  by repeat destruct Hin as [Hin|Hin].
Qed.

(** X22. The two writes of [saveLKG] are not atomic: when the storage
    takes the rows and refuses the meta, [saveLKG] still returns, and the
    store is left with the new rows beside the meta it held before. *)
Theorem saveLKG_is_not_atomic `{Runtime}
    (meta rows : value) (w : World) (st1 : Storage) :
  store_put LKG_KEY (JSON_stringify rows) (localStorage w) = Some st1 →
  store_put LKG_META_KEY (JSON_stringify meta) st1 = None →
  ∃ w', saveLKG meta rows w = (Return (), w')
        ∧ items (localStorage w') !! LKG_KEY = Some (JSON_stringify rows)
        ∧ items (localStorage w') !! LKG_META_KEY
          = items (localStorage w) !! LKG_META_KEY.
Proof.
  intros H1 H2. eexists. split; [apply saveLKG_run|].
  simpl. unfold saved. rewrite H1, H2.
  destruct (store_put_inv _ _ _ _ H1) as (_ & _ & _ & -> & _).
  by rewrite lookup_insert_eq, lookup_insert_ne.
Qed.


(* ===================================================================== *)
(** ** The further properties on concrete sites *)
(* ===================================================================== *)

Section FurtherExamples.
Import Reference Sites MoreSites.
Existing Instance browser.

(** The fetch stages of a concrete site, one by one. *)
Ltac run_stages :=
  split;
  [ eexists; split; [rewrite fetchText_run; vm_compute; reflexivity
                    | vm_compute; reflexivity]
  | eexists _, _; split_and!;
      [reflexivity | rewrite fetchText_run; vm_compute; reflexivity
      | vm_compute; reflexivity]
  | eexists _, _; split_and!;
      [reflexivity | reflexivity | rewrite fetchText_run; vm_compute; reflexivity]
  | unfold sha256; rewrite bind_run, host_run; vm_compute; reflexivity
  | reflexivity ].

Lemma Fetched_site_no_decoder (w : World) :
  Fetched site_no_decoder w manifest_ab schema_ab csv_ab digest_ab
          (VStr "0C7519A734CD41AC2c8fcc599c713091d0dddb2ccd90ecad7f30e4d9575aed40").
Proof. run_stages. Qed.

Lemma Fetched_site_number (w : World) :
  Fetched site_number w manifest_number schema_ab csv_ab digest_ab (VNum "123").
Proof. run_stages. Qed.

Lemma Fetched_site_header_only (w : World) :
  ∃ hash, Fetched site_header_only w manifest_grown schema_ab "a,b" hash VUndef.
Proof. eexists. run_stages. Qed.

Lemma Fetched_site_ab_digest (w : World) :
  Fetched site_ab w manifest_ab schema_ab csv_ab digest_ab
          (VStr "0C7519A734CD41AC2c8fcc599c713091d0dddb2ccd90ecad7f30e4d9575aed40").
Proof. run_stages. Qed.

Lemma sha256_is_lower_hex_witness :
  sha256 site_ab csv_ab (fresh 0) = (Return digest_ab, fresh 0)
  ∧ String.length digest_ab = 64
  ∧ toLowerCase digest_ab = digest_ab.
Proof.
  assert (sha256 site_ab csv_ab (fresh 0) = (Return digest_ab, fresh 0))
    as Hrun by (vm_compute; reflexivity).
  destruct (sha256_is_lower_hex site_ab csv_ab digest_ab _ _ Hrun)
    as (_ & buf & _ & _ & _ & Hlow & _).
  split_and!; [done|reflexivity|exact Hlow].
Defined.

Lemma non_string_checksum_is_type_error_witness :
  Fetched site_number cached_world manifest_number schema_ab csv_ab digest_ab
          (VNum "123")
  ∧ truthy (VNum "123") = true
  ∧ loadNetwork site_number cached_world
    = (Throw (Exn HostError "manifest.sha256.toLowerCase is not a function"),
       cached_world).
Proof.
  split_and!; [apply Fetched_site_number|reflexivity|].
  apply (non_string_checksum_is_type_error site_number cached_world
           manifest_number schema_ab csv_ab digest_ab (VNum "123")
           (Fetched_site_number _) eq_refl).
  intros s. discriminate.
Defined.

Lemma digest_comparison_ignores_case_witness :
  Fetched site_ab (fresh 0) manifest_ab schema_ab csv_ab digest_ab
          (VStr "0C7519A734CD41AC2c8fcc599c713091d0dddb2ccd90ecad7f30e4d9575aed40")
  ∧ checksum_differs
      (VStr "0C7519A734CD41AC2c8fcc599c713091d0dddb2ccd90ecad7f30e4d9575aed40")
      digest_ab = Some false.
Proof.
  split; [apply Fetched_site_ab_digest|].
  apply (digest_comparison_ignores_case site_ab (fresh 0) manifest_ab schema_ab
           csv_ab digest_ab _ (Fetched_site_ab_digest _)).
  - discriminate.
  - vm_compute. reflexivity.
Defined.

(** The string "1" and the number 1 print alike and share a URL. *)
Lemma distinct_versions_distinct_urls_witness :
  final_url (VStr "d.csv") (VStr "1") = final_url (VStr "d.csv") (VNum "1")
  ∧ to_string (VStr "1") = to_string (VNum "1").
Proof.
  assert (final_url (VStr "d.csv") (VStr "1") = final_url (VStr "d.csv") (VNum "1"))
    as Hurl by reflexivity.
  split; [exact Hurl|].
  exact (distinct_versions_distinct_urls (VStr "d.csv") (VStr "1") (VNum "1")
           eq_refl eq_refl Hurl).
Defined.

Lemma no_decoder_no_network_load_witness :
  Papa site_no_decoder = None
  ∧ loadNetwork site_no_decoder cached_world
    = (Throw (Exn DecoderUnavailableError "PapaParse not loaded"), cached_world).
Proof.
  split; [reflexivity|].
  apply (proj2 (no_decoder_no_network_load site_no_decoder cached_world eq_refl)
           manifest_ab schema_ab csv_ab digest_ab _ (Fetched_site_no_decoder _)).
  vm_compute. reflexivity.
Defined.

Lemma empty_payload_fails_network_path_witness :
  parseCSV site_header_only "a,b" cached_world = (Return [], cached_world)
  ∧ loadNetwork site_header_only cached_world
    = (Throw (Exn EmptyDatasetError "empty dataset"), cached_world).
Proof.
  assert (parseCSV site_header_only "a,b" cached_world = (Return [], cached_world))
    as Hparse by (vm_compute; reflexivity).
  split; [exact Hparse|].
  destruct (Fetched_site_header_only cached_world) as [hash Hf].
  exact (empty_payload_fails_network_path site_header_only cached_world
           manifest_grown schema_ab "a,b" hash VUndef Hf eq_refl Hparse).
Defined.



Lemma saved_entry_loads_back_witness :
  store_put LKG_KEY (JSON_stringify (rows_value rows_ab)) (localStorage (fresh 1000))
    = Some rows_stored
  ∧ store_put LKG_META_KEY (JSON_stringify (network_meta manifest_ab)) rows_stored
    = Some both_stored
  ∧ JSON_parse (JSON_stringify (rows_value rows_ab)) = Normal (rows_value rows_ab)
  ∧ JSON_parse (JSON_stringify (network_meta manifest_ab)) = Normal (network_meta manifest_ab)
  ∧ ∃ w', saveLKG (network_meta manifest_ab) (rows_value rows_ab) (fresh 1000)
          = (Return (), w')
          ∧ loadLKG w'
            = (Return (Some (MkLoadResult (rows_value rows_ab)
                                          (network_meta manifest_ab))), w').
Proof.
  assert (store_put LKG_KEY (JSON_stringify (rows_value rows_ab))
            (localStorage (fresh 1000)) = Some rows_stored) as H1
    by (vm_compute; reflexivity).
  assert (store_put LKG_META_KEY (JSON_stringify (network_meta manifest_ab))
            rows_stored = Some both_stored) as H2 by (vm_compute; reflexivity).
  assert (JSON_parse (JSON_stringify (rows_value rows_ab)) = Normal (rows_value rows_ab))
    as Hr by (vm_compute; reflexivity).
  assert (JSON_parse (JSON_stringify (network_meta manifest_ab))
          = Normal (network_meta manifest_ab)) as Hm by (vm_compute; reflexivity).
  refine (conj H1 (conj H2 (conj Hr (conj Hm _)))).
  pose proof (saved_entry_loads_back (network_meta manifest_ab)
                (rows_value rows_ab) (fresh 1000) rows_stored both_stored) as Hback.
  specialize (Hback H1 H2 Hr Hm). apply Hback.
  - vm_compute. discriminate.
  - vm_compute. discriminate.
  - reflexivity.
  - reflexivity.
Defined.

(** A store edited down to an empty array is served as it is. *)
Lemma fallback_is_not_validated_witness :
  loadNetwork offline edited_world
    = (Throw (Exn HostError "Failed to fetch"), edited_world)
  ∧ JSON_parse "[]" = Normal (VArr [])
  ∧ ∃ w', loadData offline edited_world
          = (Return (MkLoadResult (VArr []) (network_meta manifest_ab)), w').
Proof.
  assert (loadNetwork offline edited_world
          = (Throw (Exn HostError "Failed to fetch"), edited_world))
    as Hnet by (vm_compute; reflexivity).
  assert (JSON_parse "[]" = Normal (VArr [])) as Hrows by (vm_compute; reflexivity).
  assert (JSON_parse (JSON_stringify (network_meta manifest_ab))
          = Normal (network_meta manifest_ab)) as Hmeta
    by (vm_compute; reflexivity).
  refine (conj Hnet (conj Hrows _)).
  pose proof (fallback_is_not_validated offline edited_world edited_world
                (Exn HostError "Failed to fetch")
                "[]" (JSON_stringify (network_meta manifest_ab))
                (VArr []) (network_meta manifest_ab) Hnet eq_refl) as Hfall.
  apply Hfall.
  - vm_compute. reflexivity.
  - vm_compute. reflexivity.
  - discriminate.
  - vm_compute. discriminate.
  - exact Hrows.
  - exact Hmeta.
  - reflexivity.
  - reflexivity.
Defined.


Lemma reload_keeps_store_witness :
  loadNetwork site_ab (fresh 1000) = (Return result_ab, cached_world)
  ∧ ∃ w2, loadData site_ab cached_world = (Return result_ab, w2)
          ∧ localStorage w2 = localStorage cached_world.
Proof.
  assert (loadNetwork site_ab (fresh 1000) = (Return result_ab, cached_world))
    as Hnet by (vm_compute; reflexivity).
  split; [exact Hnet|].
  exact (reload_keeps_store site_ab (fresh 1000) cached_world result_ab Hnet).
Defined.

Lemma last_known_good_is_served_witness :
  loadNetwork site_ab (fresh 1000) = (Return result_ab, cached_world)
  ∧ loadNetwork offline cached_world
    = (Throw (Exn HostError "Failed to fetch"), cached_world)
  ∧ ∃ w3, loadData offline cached_world = (Return result_ab, w3).
Proof.
  assert (loadNetwork site_ab (fresh 1000) = (Return result_ab, cached_world))
    as Hnet by (vm_compute; reflexivity).
  assert (loadNetwork offline cached_world
          = (Throw (Exn HostError "Failed to fetch"), cached_world))
    as Hfail by (vm_compute; reflexivity).
  assert (store_put LKG_KEY (JSON_stringify (rows result_ab))
            (localStorage (fresh 1000)) = Some rows_stored) as H1
    by (vm_compute; reflexivity).
  assert (store_put LKG_META_KEY (JSON_stringify (meta result_ab)) rows_stored
          = Some both_stored) as H2 by (vm_compute; reflexivity).
  assert (JSON_parse (JSON_stringify (rows result_ab)) = Normal (rows result_ab))
    as Hr by (vm_compute; reflexivity).
  assert (JSON_parse (JSON_stringify (meta result_ab)) = Normal (meta result_ab))
    as Hm by (vm_compute; reflexivity).
  refine (conj Hnet (conj Hfail _)).
  pose proof (last_known_good_is_served site_ab offline (fresh 1000)
                cached_world cached_world result_ab
                (Exn HostError "Failed to fetch") rows_stored both_stored
                Hnet H1 H2 Hr Hm) as Hserved.
  apply Hserved.
  - vm_compute. discriminate.
  - vm_compute. discriminate.
  - exact Hfail.
Defined.

Lemma requests_site_ab :
  requests site_ab = ["data/manifest.json"; "data/schema_v1.json"; "d.csv?v=1"].
Proof. vm_compute. reflexivity. Qed.

(** One more resource on the server does not change the load. *)
Lemma network_path_reads_three_resources_witness :
  requests site_ab = ["data/manifest.json"; "data/schema_v1.json"; "d.csv?v=1"]
  ∧ fetch site_ab "data/other.json" ≠ fetch site_ab_more "data/other.json"
  ∧ loadNetwork site_ab (fresh 0) = loadNetwork site_ab_more (fresh 0).
Proof.
  split; [exact requests_site_ab|]. split; [vm_compute; discriminate|].
  apply (network_path_reads_three_resources site_ab site_ab_more (fresh 0)).
  - intros url. rewrite requests_site_ab, !elem_of_cons, elem_of_nil.
    intros [->|[->|[->|[]]]]; vm_compute; reflexivity.
  - reflexivity.
  - reflexivity.
Defined.


Lemma network_failure_kinds_witness :
  loadNetwork site_header_only cached_world
    = (Throw (Exn EmptyDatasetError "empty dataset"), cached_world)
  ∧ EmptyDatasetError ≠ NoDataAvailableError.
Proof.
  assert (loadNetwork site_header_only cached_world
          = (Throw (Exn EmptyDatasetError "empty dataset"), cached_world))
    as Hnet by (vm_compute; reflexivity).
  split; [exact Hnet|].
  exact (proj2 (network_failure_kinds site_header_only cached_world cached_world
                  _ Hnet)).
Defined.

(** The store of [grown_world] takes the shorter rows of [site_ab] and
    has no room for their meta: the meta of [site_grown] stays. *)
Lemma saveLKG_is_not_atomic_witness :
  store_put LKG_KEY (JSON_stringify (rows_value rows_ab)) (localStorage grown_world)
    = Some grown_rows_stored
  ∧ store_put LKG_META_KEY (JSON_stringify (network_meta manifest_ab))
      grown_rows_stored = None
  ∧ ∃ w', saveLKG (network_meta manifest_ab) (rows_value rows_ab) grown_world
          = (Return (), w')
          ∧ items (localStorage w') !! LKG_KEY
            = Some (JSON_stringify (rows_value rows_ab))
          ∧ items (localStorage w') !! LKG_META_KEY
            = items (localStorage grown_world) !! LKG_META_KEY.
Proof.
  assert (store_put LKG_KEY (JSON_stringify (rows_value rows_ab))
            (localStorage grown_world) = Some grown_rows_stored) as H1
    by (vm_compute; reflexivity).
  assert (store_put LKG_META_KEY (JSON_stringify (network_meta manifest_ab))
            grown_rows_stored = None) as H2 by (vm_compute; reflexivity).
  refine (conj H1 (conj H2 _)).
  exact (saveLKG_is_not_atomic (network_meta manifest_ab) (rows_value rows_ab)
           grown_world grown_rows_stored H1 H2).
Defined.


End FurtherExamples.
